(** * VideoSplitPro: the highlight-clip pipeline of [ad.py]

    The development embeds the four pieces of [ad.py] that carry its
    logic: the greedy segmenter and the rating-based selector inside
    [split_video_into_clips], the collision-free file naming of
    [get_unique_filename], and the console editor [modify_clip] with its
    caller [interactive_modification].

    Modelling decisions, valid for the whole file:
    - a time is an exact rational number of seconds ([Q]); the rounding
      of Python floats is not modelled;
    - the audio analysis of pydub is outside the program: the list of
      non-silent intervals it reports is an input of the model;
    - the moviepy calls are reduced to what the program observes of
      them: a handle counter, the set of files on disk and the log of
      completed [write_videofile] calls; whether an encode succeeds is
      decided by the environment ([encodes]), and a failed encode is
      taken to leave no file behind;
    - [input()] reads the next line of a finite list of console lines
      and raises [EOFError] when the list is exhausted, so the editor
      loops are total; [print] is not modelled;
    - opening the video and loading its audio are taken to succeed, and
      the special floats [inf] and [nan] are left out. *)

From Stdlib Require Import QArith Qminmax Qround Lqa ZArith List String Ascii.
From Stdlib Require Import DecimalString DecimalNat DecimalZ Permutation Sorted.
From Stdlib Require DecimalPos.
From stdpp Require Import gmap strings list.

Open Scope Q_scope.

(** ** Data model *)

(** A non-silent interval [(start, end)] in seconds. *)
Definition Peak : Type := Q * Q.

(** An entry of [cuts]: [(current_start, current_end, current_peaks)]. *)
Definition Cut : Type := Q * Q * list Peak.

(** An entry of [rated_clips] and of the editor's clip list:
    [(start, end, rating)]. *)
Definition Clip : Type := Q * Q * nat.

Definition cut_start (c : Cut) : Q := fst (fst c).
Definition cut_end (c : Cut) : Q := snd (fst c).
Definition cut_peaks (c : Cut) : list Peak := snd c.

Definition clip_start (c : Clip) : Q := fst (fst c).
Definition clip_end (c : Clip) : Q := snd (fst c).
Definition clip_rating (c : Clip) : nat := snd c.

(** Python's [a > b] and [a >= b] on exact numbers. *)
Definition Qgtb (a b : Q) : bool := negb (Qle_bool a b).
Definition Qgeb (a b : Q) : bool := Qle_bool b a.

(** ** rate_clip *)

Definition rate_clip (clip_peaks : list Peak) : nat := length clip_peaks.

(** ** The segmenter loop of split_video_into_clips (lines 50-69) *)

(** The four variables the loop updates. *)
Record Running : Type := mkRunning {
  cuts : list Cut;
  current_start : Q;
  current_end : Q;
  current_peaks : list Peak
}.

Definition running_init : Running :=
  {| cuts := []; current_start := 0; current_end := 0; current_peaks := [] |}.

(** [cuts.append((current_start, current_end, current_peaks))] under the
    test [(current_end - current_start) >= min_duration]. *)
Definition close_segment (min_duration : Q) (r : Running) : list Cut :=
  if Qgeb (current_end r - current_start r) min_duration
  then cuts r ++ [(current_start r, current_end r, current_peaks r)]
  else cuts r.

(** One iteration of [for peak in peak_times]. In the first branch
    [current_peaks] is rebound to a fresh list, so the list stored in
    [cuts] is never mutated afterwards. *)
Definition segment_step (min_duration max_duration : Q)
    (r : Running) (peak : Peak) : Running :=
  if Qgtb (snd peak - current_start r) max_duration then
    {| cuts := close_segment min_duration r;
       current_start := fst peak;
       current_end := snd peak;
       current_peaks := [peak] |}
  else
    {| cuts := cuts r;
       current_start := current_start r;
       current_end := snd peak;
       current_peaks := current_peaks r ++ [peak] |}.

Definition segment_loop (min_duration max_duration : Q)
    (peak_times : list Peak) (r : Running) : Running :=
  fold_left (segment_step min_duration max_duration) peak_times r.

(** The value of [cuts] at line 70. *)
Definition segmenter (peak_times : list Peak)
    (min_duration max_duration : Q) : list Cut :=
  close_segment min_duration
    (segment_loop min_duration max_duration peak_times running_init).

(** ** Rating and selection (lines 72-75 and the slice [[:num_clips]]) *)

Definition rate_cuts (cs : list Cut) : list Clip :=
  map (fun c => (cut_start c, cut_end c, rate_clip (cut_peaks c))) cs.

(** [list.sort(key=lambda x: x[2], reverse=True)]: Python's sort is
    stable, also with [reverse=True]. It is modelled by a stable
    insertion sort: an element is placed after the elements of strictly
    larger rating and before the first one whose rating is not larger. *)
Fixpoint insert_by_rating (c : Clip) (l : list Clip) : list Clip :=
  match l with
  | [] => [c]
  | d :: l' =>
      if (clip_rating c <? clip_rating d)%nat
      then d :: insert_by_rating c l'
      else c :: d :: l'
  end.

Definition sort_by_rating (l : list Clip) : list Clip :=
  fold_right insert_by_rating [] l.

(** The slice [l[:n]] for a Python integer [n]: a negative [n] counts
    from the end of the list. *)
Definition slice_to {A : Type} (n : Z) (l : list A) : list A :=
  if (0 <=? n)%Z then firstn (Z.to_nat n) l
  else firstn (length l - Z.to_nat (- n)) l.

(** The value of [rated_clips[:num_clips]] once [rated_clips] is sorted. *)
Definition select_top (rated_clips : list Clip) (num_clips : Z) : list Clip :=
  slice_to num_clips (sort_by_rating rated_clips).

(** ** File names *)

(** [str(n)] for the integers the program formats into file names. *)
Definition str_of_nat (n : nat) : string :=
  NilEmpty.string_of_uint (Nat.to_uint n).

Definition str_of_Z (z : Z) : string :=
  NilZero.string_of_int (Z.to_int z).

Definition starts_with_sep (s : string) : bool :=
  match s with
  | String c _ => Ascii.eqb c "/"
  | EmptyString => false
  end.

Fixpoint ends_with_sep (s : string) : bool :=
  match s with
  | EmptyString => false
  | String c EmptyString => Ascii.eqb c "/"
  | String _ rest => ends_with_sep rest
  end.

(** [os.path.join(a, b)] in its POSIX version. *)
Definition path_join (a b : string) : string :=
  if starts_with_sep b then b
  else if String.eqb a "" || ends_with_sep a then a +:+ b
  else a +:+ "/" +:+ b.

(** The path tried by get_unique_filename for a value of [counter]. *)
Definition candidate_path (output_folder base_name extension : string)
    (counter : nat) : string :=
  path_join output_folder
    (base_name +:+ "_" +:+ str_of_nat counter +:+ "." +:+ extension).

(** The [while True] loop of get_unique_filename, with a bound on the
    number of iterations; [fs] is the set of paths for which
    [os.path.exists] answers true. *)
Fixpoint get_unique_filename_loop (fuel : nat) (fs : gset string)
    (output_folder base_name extension : string) (counter : nat)
    : option string :=
  match fuel with
  | O => None
  | S fuel' =>
      let output_path :=
        candidate_path output_folder base_name extension counter in
      if bool_decide (output_path ∈ fs)
      then get_unique_filename_loop fuel' fs output_folder base_name
             extension (S counter)
      else Some output_path
  end.

(** get_unique_filename starts the loop at [counter = 1]. One more
    iteration than there are existing paths always suffices
    ([get_unique_filename_total]). *)
Definition get_unique_filename (fs : gset string)
    (output_folder base_name : string) (extension : string) : option string :=
  get_unique_filename_loop (S (size fs)) fs output_folder base_name
    extension 1.

(** ** The environment and the observable state of a run *)

(** What the program takes from its libraries and from the video file.
    [to_float] and [to_int] stand for [float(s)] and [int(s)], with
    [None] for [ValueError]; [encodes path ranges] tells whether cutting
    the given ranges out of the video ([subclip], [concatenate_videoclips])
    and encoding them to [path] ([write_videofile]) completes. *)
Record Externals : Type := mkExternals {
  video_duration : Q;
  to_float : string -> option Q;
  to_int : string -> option Z;
  encodes : string -> list (Q * Q) -> bool
}.

Inductive Exn : Type :=
  EOFError | ValueError | IndexError | MediaError | OSError.

(** The result of running a piece of the program: a normal return, an
    exception that nothing catches, or an exhausted iteration budget of
    the model (never a behaviour of the program itself). *)
Inductive Outcome (A : Type) : Type :=
  | Returned (a : A)
  | Raised (e : Exn)
  | OutOfFuel.

Arguments Returned {A} a.
Arguments Raised {A} e.
Arguments OutOfFuel {A}.

(** [files]: the paths that exist on disk; [open_videos]: the number of
    [VideoFileClip] handles opened and not closed; [exports]: the
    completed [write_videofile] calls, oldest first, each with the
    ranges of the source video it holds; [clips]: the list object that
    [__main__] binds to [clips] and hands to the editor. *)
Record World : Type := mkWorld {
  files : gset string;
  open_videos : nat;
  exports : list (string * list (Q * Q));
  clips : list Clip
}.

(** A statement of the program: it runs in a world and leaves a world,
    with a result or an exception. *)
Definition Run (A : Type) : Type := World -> Outcome A * World.

Definition ret {A : Type} (a : A) : Run A := fun w => (Returned a, w).

Definition raise {A : Type} (e : Exn) : Run A := fun w => (Raised e, w).

Definition out_of_fuel {A : Type} : Run A := fun w => (OutOfFuel, w).

(** Sequencing: an exception in [m] skips [k]. *)
Definition bind {A B : Type} (k : A -> Run B) (m : Run A) : Run B :=
  fun w =>
    match m w with
    | (Returned a, w') => k a w'
    | (Raised e, w') => (Raised e, w')
    | (OutOfFuel, w') => (OutOfFuel, w')
    end.

#[global] Instance run_ret : MRet Run := @ret.
#[global] Instance run_bind : MBind Run := @bind.

(** The world once one more handle is open. *)
Definition with_video_open (w : World) : World :=
  {| files := files w; open_videos := S (open_videos w);
     exports := exports w; clips := clips w |}.

(** [VideoFileClip(video_path)] *)
Definition open_video : Run unit := fun w => (Returned tt, with_video_open w).

(** [video.close()] *)
Definition close_video : Run unit := fun w =>
  (Returned tt,
   {| files := files w; open_videos := pred (open_videos w);
      exports := exports w; clips := clips w |}).

(** [clips.append(c)] *)
Definition append_clip (c : Clip) : Run unit := fun w =>
  (Returned tt,
   {| files := files w; open_videos := open_videos w;
      exports := exports w; clips := clips w ++ [c] |}).

(** Reading the list object [clips]. *)
Definition read_clips : Run (list Clip) := fun w => (Returned (clips w), w).

(** [video.subclip(..)] for each range, [concatenate_videoclips] when
    there are several, and [.write_videofile(output_path, codec="libx264")].
    A failure raises before anything is appended or logged. That a
    failed encode leaves nothing at [output_path] is an assumption on
    the encoder, which the source does not enforce: it never removes a
    file. *)
Definition write_videofile (ext : Externals) (output_path : string)
    (ranges : list (Q * Q)) : Run unit := fun w =>
  if encodes ext output_path ranges then
    (Returned tt,
     {| files := {[output_path]} ∪ files w;
        open_videos := open_videos w;
        exports := exports w ++ [(output_path, ranges)];
        clips := clips w |})
  else (Raised MediaError, w).

(** get_unique_filename against the files now on disk. *)
Definition unique_filename (output_folder base_name : string)
    : Run string := fun w =>
  match get_unique_filename (files w) output_folder base_name "mp4" with
  | Some output_path => (Returned output_path, w)
  | None => (OutOfFuel, w)
  end.

(** ** split_video_into_clips *)

(** The export loop of lines 78-82; [i] is the index given by
    [enumerate]. An existing file of the same name is overwritten. *)
Fixpoint export_clips (ext : Externals) (output_folder : string) (i : nat)
    (selected : list Clip) : Run unit :=
  match selected with
  | [] => ret tt
  | (start, end_, rating) :: rest =>
      let output_path :=
        path_join output_folder
          ("clip_" +:+ str_of_nat (i + 1) +:+ "_rating_"
             +:+ str_of_nat rating +:+ ".mp4") in
      (write_videofile ext output_path [(start, end_)] ;;
       export_clips ext output_folder (S i) rest)
  end.

(** The whole function; [peak_times] is what [detect_audio_peaks]
    reported for the audio track of the video. *)
Definition split_video_into_clips (ext : Externals) (peak_times : list Peak)
    (output_folder : string) (num_clips : Z) (min_duration max_duration : Q)
    : Run (list Clip) :=
  let rated_clips :=
    rate_cuts (segmenter peak_times min_duration max_duration) in
  (open_video ;;
   export_clips ext output_folder 0 (select_top rated_clips num_clips) ;;
   close_video ;;
   ret (select_top rated_clips num_clips)).

(** ** modify_clip *)

(** [float(input(..))], then the rest of the branch, which gets the
    number and the console input left. *)
Definition read_float {A : Type} (ext : Externals) (stdin : list string)
    (k : Q -> list string -> Run A) : Run A :=
  match stdin with
  | [] => raise EOFError
  | line :: stdin' =>
      match to_float ext line with
      | None => raise ValueError
      | Some x => k x stdin'
      end
  end.

(** Lines 201-211: export [(new_start, new_end)] under a fresh name,
    append it with rating 0 and leave the loop. The result is the part
    of the console input not read yet. *)
Definition export_modified (ext : Externals) (output_folder : string)
    (clip_index : Z) (new_start new_end : Q) (stdin : list string)
    : Run (list string) :=
  (output_path ← unique_filename output_folder
                    ("clip_" +:+ str_of_Z clip_index +:+ "_modified");
   write_videofile ext output_path [(new_start, new_end)] ;;
   append_clip (new_start, new_end, 0%nat) ;;
   ret stdin).

(** Lines 179-193: the Trim-Middle branch, which returns by itself. *)
Definition trim_middle (ext : Externals) (output_folder : string)
    (clip_index : Z) (start_time end_time middle_start middle_end : Q)
    (stdin : list string) : Run (list string) :=
  (output_path ← unique_filename output_folder
                    ("clip_" +:+ str_of_Z clip_index +:+ "_middle_trimmed");
   write_videofile ext output_path
     [(start_time, start_time + middle_start);
      (start_time + middle_end, end_time)] ;;
   append_clip (start_time, start_time + middle_start, 0%nat) ;;
   append_clip (start_time + middle_end, end_time, 0%nat) ;;
   ret stdin).

(** The [while True] loop of lines 131-211. Every iteration reads at
    least one line, so the loop is structurally recursive on the console
    input; a recursive call is a [continue]. *)
Fixpoint modify_loop (ext : Externals) (output_folder : string)
    (clip_index : Z) (start_time end_time : Q)
    (stdin : list string) {struct stdin} : Run (list string) :=
  match stdin with
  | [] => raise EOFError
  | modification_type :: stdin1 =>
    if String.eqb modification_type "0" then ret stdin1
    else if String.eqb modification_type "1" then
      match stdin1 with
      | [] => raise EOFError
      | add_type :: stdin2 =>
        if String.eqb add_type "0" then
          modify_loop ext output_folder clip_index start_time end_time stdin2
        else if String.eqb add_type "1" then
          read_float ext stdin2 (fun front_time stdin3 =>
            export_modified ext output_folder clip_index
              (Qmax (start_time - front_time) 0) end_time stdin3)
        else if String.eqb add_type "2" then
          read_float ext stdin2 (fun back_time stdin3 =>
            export_modified ext output_folder clip_index
              start_time (Qmin (end_time + back_time) (video_duration ext))
              stdin3)
        else if String.eqb add_type "3" then
          read_float ext stdin2 (fun front_time stdin3 =>
          read_float ext stdin3 (fun back_time stdin4 =>
            export_modified ext output_folder clip_index
              (Qmax (start_time - front_time) 0)
              (Qmin (end_time + back_time) (video_duration ext)) stdin4))
        else
          modify_loop ext output_folder clip_index start_time end_time stdin2
      end
    else if String.eqb modification_type "2" then
      match stdin1 with
      | [] => raise EOFError
      | trim_type :: stdin2 =>
        if String.eqb trim_type "0" then
          modify_loop ext output_folder clip_index start_time end_time stdin2
        else if String.eqb trim_type "1" then
          read_float ext stdin2 (fun front_time stdin3 =>
            export_modified ext output_folder clip_index
              (start_time + front_time) end_time stdin3)
        else if String.eqb trim_type "2" then
          read_float ext stdin2 (fun back_time stdin3 =>
            export_modified ext output_folder clip_index
              start_time (end_time - back_time) stdin3)
        else if String.eqb trim_type "3" then
          read_float ext stdin2 (fun front_time stdin3 =>
          read_float ext stdin3 (fun back_time stdin4 =>
            export_modified ext output_folder clip_index
              (start_time + front_time) (end_time - back_time) stdin4))
        else if String.eqb trim_type "4" then
          read_float ext stdin2 (fun middle_start stdin3 =>
          read_float ext stdin3 (fun middle_end stdin4 =>
            trim_middle ext output_folder clip_index start_time end_time
              middle_start middle_end stdin4))
        else
          modify_loop ext output_folder clip_index start_time end_time stdin2
      end
    else
      modify_loop ext output_folder clip_index start_time end_time stdin1
  end.

(** modify_clip opens the video (line 129) and runs the loop; the
    function has no [video.close()]. Its argument [clips] is the list
    held by the world. *)
Definition modify_clip (ext : Externals) (output_folder : string)
    (clip_index : Z) (start_time end_time : Q)
    (stdin : list string) : Run (list string) :=
  (open_video ;;
   modify_loop ext output_folder clip_index start_time end_time stdin).

(** ** interactive_modification *)

Definition lower_ascii (c : ascii) : ascii :=
  let n := nat_of_ascii c in
  if (65 <=? n)%nat && (n <=? 90)%nat then ascii_of_nat (n + 32) else c.

(** [str.lower()] on ASCII letters. *)
Fixpoint lower (s : string) : string :=
  match s with
  | EmptyString => EmptyString
  | String c rest => String (lower_ascii c) (lower rest)
  end.

(** [clips[i]] for an index that the caller has checked. *)
Definition clip_at (i : nat) : Run Clip := fun w =>
  match nth_error (clips w) i with
  | Some c => (Returned c, w)
  | None => (Raised IndexError, w)
  end.

(** The menu loop of lines 221-244. What modify_clip leaves unread is
    not a sub-list in the eyes of the termination checker, so the loop
    carries a bound on its iterations. *)
Fixpoint interactive_modification (fuel : nat) (ext : Externals)
    (output_folder : string) (stdin : list string) : Run (list string) :=
  match fuel with
  | O => out_of_fuel
  | S fuel' =>
    match stdin with
    | [] => raise EOFError
    | clip_index :: stdin1 =>
      if String.eqb (lower clip_index) "done" then ret stdin1
      else
        match to_int ext clip_index with
        | None => interactive_modification fuel' ext output_folder stdin1
        | Some n =>
          (cl ← read_clips;
           if (n <? 1)%Z || (Z.of_nat (length cl) <? n)%Z then
             interactive_modification fuel' ext output_folder stdin1
           else
             c ← clip_at (Z.to_nat (n - 1));
             stdin2 ← modify_clip ext output_folder n
                         (clip_start c) (clip_end c) stdin1;
             interactive_modification fuel' ext output_folder stdin2)
        end
    end
  end.

(** ** detect_audio_peaks *)

(** Lines 17-18: the millisecond pairs reported by pydub's
    [detect_nonsilent] (an input of the model) are turned into seconds
    by the true division [/ 1000]. *)
Definition detect_audio_peaks (nonsilent_periods : list (Z * Z)) : list Peak :=
  map (fun period => (inject_Z (fst period) / 1000,
                      inject_Z (snd period) / 1000))
    nonsilent_periods.

(** ** format_time *)

(** [format(n, "02d")]: at least two characters, filled with zeros on
    the left; the sign of a negative number counts as a character. *)
Definition format_02d (n : Z) : string :=
  let digits := str_of_Z n in
  if (String.length digits <? 2)%nat then "0" +:+ digits else digits.

(** [int(x)] rounds towards zero. *)
Definition int_of (x : Q) : Z :=
  if Qle_bool 0 x then Qfloor x else Qceiling x.

(** [a // b] is the floor of the quotient, and [a % b] is what is left
    of [a] above [b] times that floor. For floats [a] with
    [0 <= a < 2^53] and [b = 60] Python computes both without rounding
    ([fmod] is exact and the quotient is a whole number below [2^53]);
    for negative or larger [a] its results are rounded and these exact
    definitions do not describe them. *)
Definition floor_div (a b : Q) : Q := inject_Z (Qfloor (a / b)).

Definition modulo (a b : Q) : Q := a - b * floor_div a b.

(** Lines 113-115, for a time in the range where [//] and [%] are
    exact: [0 <= seconds < 2^53]. *)
Definition format_time (seconds : Q) : string :=
  let minutes := int_of (floor_div seconds 60) in
  let seconds := int_of (modulo seconds 60) in
  str_of_Z minutes +:+ ":" +:+ format_02d seconds.

(** ** The main program (lines 246-262) *)

(** [if not os.path.exists(output_folder): os.makedirs(output_folder)].
    What [os.makedirs] does when it is called is an input: it creates
    the missing parent directories [ancestors] that it gets to, and then
    the folder itself when [created] is true; when [created] is false it
    raises [OSError] (no permission, a file in the way, ...) and the
    parents made so far stay. *)
Definition ensure_folder (output_folder : string) (ancestors : gset string)
    (created : bool) : Run unit := fun w =>
  if bool_decide (output_folder ∈ files w) then (Returned tt, w)
  else if created then
    (Returned tt,
     {| files := {[output_folder]} ∪ ancestors ∪ files w;
        open_videos := open_videos w;
        exports := exports w; clips := clips w |})
  else
    (Raised OSError,
     {| files := ancestors ∪ files w;
        open_videos := open_videos w;
        exports := exports w; clips := clips w |}).

(** [clips = ...]: the name [clips] is bound to a new list. *)
Definition bind_clips (cl : list Clip) : Run unit := fun w =>
  (Returned tt,
   {| files := files w; open_videos := open_videos w;
      exports := exports w; clips := cl |}).

(** The script: the folder, the number of clips read with
    [int(input(..))], the split with [min_duration=30] and
    [max_duration=89], and the editor. [fuel] bounds the menu loop. *)
Definition main (fuel : nat) (ext : Externals) (peak_times : list Peak)
    (output_folder : string) (ancestors : gset string) (created : bool)
    (stdin : list string) : Run (list string) :=
  ensure_folder output_folder ancestors created;;
  match stdin with
  | [] => raise EOFError
  | line :: stdin1 =>
      match to_int ext line with
      | None => raise ValueError
      | Some num_clips =>
          cl ← split_video_into_clips ext peak_times output_folder
                 num_clips 30 89;
          bind_clips cl;;
          interactive_modification fuel ext output_folder stdin1
      end
  end.

(** A parser for the non-empty strings of decimal digits, which are
    among the strings that [float] and [int] accept; it instantiates the
    environment in the examples. *)
Definition decimal_of_string (s : string) : option Z :=
  match NilZero.uint_of_string s with
  | Some d => Some (Z.of_nat (Nat.of_uint d))
  | None => None
  end.

Definition decimal_externals (duration : Q)
    (enc : string -> list (Q * Q) -> bool) : Externals :=
  {| video_duration := duration;
     to_float := fun s => option_map inject_Z (decimal_of_string s);
     to_int := decimal_of_string;
     encodes := enc |}.

(** A world with nothing on disk, no open handle and nothing exported,
    and the clip list [cl]. *)
Definition empty_world (cl : list Clip) : World :=
  {| files := ∅; open_videos := 0; exports := []; clips := cl |}.

(** ** Vocabulary of the statements *)

(** What is known of a segment [(s, e, ps)], running or emitted, for a
    cap [max_duration] and intervals taken among [known]: it is the
    initial empty segment, or it respects the cap, or it is a single
    interval that is longer than the cap by itself. *)
Definition shaped (max_duration : Q) (known : Peak -> Prop)
    (s e : Q) (ps : list Peak) : Prop :=
  (ps = [] /\ s = 0 /\ e = 0)
  \/ (ps <> [] /\ e - s <= max_duration)
  \/ (exists p, known p /\ ps = [p] /\ s = fst p /\ e = snd p
                /\ max_duration < snd p - fst p).

Definition emitted_ok (min_duration max_duration : Q) (known : Peak -> Prop)
    (c : Cut) : Prop :=
  min_duration <= cut_end c - cut_start c
  /\ shaped max_duration known (cut_start c) (cut_end c) (cut_peaks c).

Definition running_ok (min_duration max_duration : Q) (known : Peak -> Prop)
    (r : Running) : Prop :=
  Forall (emitted_ok min_duration max_duration known) (cuts r)
  /\ shaped max_duration known
       (current_start r) (current_end r) (current_peaks r).

(** [a] may stand before [b] in a list sorted by rating, best first. *)
Definition rating_ge (a b : Clip) : Prop :=
  (clip_rating b <= clip_rating a)%nat.

Definition has_rating (r : nat) (c : Clip) : bool :=
  (clip_rating c =? r)%nat.

(** The outcome of an edit that exports [ranges] to [path] and appends
    [new] to the clip list, with [rest] of the console input left: the
    edit completes when the encoder does, and otherwise raises with
    nothing exported and nothing appended. *)
Definition edit_result (ext : Externals) (w : World)
    (res : Outcome (list string) * World) (rest : list string)
    (path : string) (ranges : list (Q * Q)) (new : list Clip) : Prop :=
  if encodes ext path ranges then
    exists w', res = (Returned rest, w')
      /\ files w' = {[path]} ∪ files w
      /\ exports w' = exports w ++ [(path, ranges)]
      /\ clips w' = clips w ++ new
  else
    exists w', res = (Raised MediaError, w')
      /\ files w' = files w
      /\ exports w' = exports w
      /\ clips w' = clips w.

(** Base names of the files written by modify_clip. *)
Definition modified_name (clip_index : Z) : string :=
  "clip_" +:+ str_of_Z clip_index +:+ "_modified".

Definition middle_trimmed_name (clip_index : Z) : string :=
  "clip_" +:+ str_of_Z clip_index +:+ "_middle_trimmed".

(** The menu choices Add ("1") or Trim ("2") with Front ("1"), Back
    ("2") or Both ("3"). *)
Definition single_choice (modification_type where_ : string) : Prop :=
  (modification_type = "1"%string \/ modification_type = "2"%string)
  /\ (where_ = "1"%string \/ where_ = "2"%string \/ where_ = "3"%string).

(** The three ways in which a run of the editor loop that read [stdin]
    down to [rest] can have changed the world [w] into [w']: the lines
    read end with Back and nothing changed; or they end with an Add or
    Trim choice of Front, Back or Both and its numbers, one file was
    written and one clip appended; or they end with Trim-Middle and its
    two numbers, one file was written and two clips appended. *)
Definition edit_effects (output_folder : string) (clip_index : Z)
    (w : World) (stdin rest : list string) (w' : World) : Prop :=
  (exists pre, stdin = pre ++ "0"%string :: rest
     /\ files w' = files w /\ exports w' = exports w /\ clips w' = clips w)
  \/ (exists pre m t args path a b,
        stdin = pre ++ m :: t :: args ++ rest
        /\ single_choice m t
        /\ get_unique_filename (files w) output_folder
             (modified_name clip_index) "mp4" = Some path
        /\ (path ∉ files w)
        /\ files w' = {[path]} ∪ files w
        /\ exports w' = exports w ++ [(path, [(a, b)])]
        /\ clips w' = clips w ++ [(a, b, 0%nat)])
  \/ (exists pre l1 l2 path a b c d,
        stdin = pre ++ "2"%string :: "4"%string :: l1 :: l2 :: rest
        /\ get_unique_filename (files w) output_folder
             (middle_trimmed_name clip_index) "mp4" = Some path
        /\ (path ∉ files w)
        /\ files w' = {[path]} ∪ files w
        /\ exports w' = exports w ++ [(path, [(a, b); (c, d)])]
        /\ clips w' = clips w ++ [(a, b, 0%nat); (c, d, 0%nat)]).

(** Intervals that follow one another from time [t] on: each begins
    at [t] or later and no earlier than the one before it ends, and
    none ends before it begins. *)
Fixpoint chronological_from (t : Q) (l : list Peak) : Prop :=
  match l with
  | [] => True
  | p :: l' => t <= fst p /\ fst p <= snd p /\ chronological_from (snd p) l'
  end.

(** The same for the millisecond pairs of [detect_nonsilent]. *)
Fixpoint periods_from (t : Z) (l : list (Z * Z)) : Prop :=
  match l with
  | [] => True
  | p :: l' => (t <= fst p)%Z /\ (fst p <= snd p)%Z /\ periods_from (snd p) l'
  end.

(** [c] is over when [d] begins. *)
Definition cut_before (c d : Cut) : Prop := cut_end c <= cut_start d.

(** [c] begins at 0 or later and does not end before it begins. *)
Definition cut_proper (c : Cut) : Prop :=
  0 <= cut_start c /\ cut_start c <= cut_end c.

(** The intervals held by the loop: those of the cuts, then those of
    the running segment. *)
Definition absorbed (r : Running) : list Peak :=
  concat (map cut_peaks (cuts r)) ++ current_peaks r.

(** The cuts made so far lie one after the other, at 0 or later, and
    are over when the running segment begins. *)
Definition running_ordered (r : Running) : Prop :=
  StronglySorted cut_before (cuts r)
  /\ Forall cut_proper (cuts r)
  /\ Forall (fun c => cut_end c <= current_start r) (cuts r)
  /\ 0 <= current_start r
  /\ current_start r <= current_end r.

(** The file written by split_video_into_clips for the clip [c] at
    index [i] of the selection. *)
Definition clip_file (output_folder : string) (i : nat) (c : Clip) : string :=
  path_join output_folder
    ("clip_" +:+ str_of_nat (i + 1) +:+ "_rating_"
       +:+ str_of_nat (clip_rating c) +:+ ".mp4").

(** The exports that split_video_into_clips sets out to make for a
    selection whose first clip has index [i]. *)
Fixpoint planned_exports (output_folder : string) (i : nat)
    (selected : list Clip) : list (string * list (Q * Q)) :=
  match selected with
  | [] => []
  | c :: rest =>
      (clip_file output_folder i c, [(clip_start c, clip_end c)])
        :: planned_exports output_folder (S i) rest
  end.

(** The character [c] occurs in [s]. *)
Fixpoint occurs (c : ascii) (s : string) : Prop :=
  match s with
  | EmptyString => False
  | String x rest => c = x \/ occurs c rest
  end.

(** From [w] to [w'] the editor has only added: the clip list is the
    old one followed by clips rated 0, the export log is the old one
    followed by exports to files that did not exist in [w], all
    different, and these files are what is new on disk; there are at
    most two new clips per export. *)
Definition grows (w w' : World) : Prop :=
  exists new written,
    clips w' = clips w ++ new
    /\ Forall (fun c => clip_rating c = 0%nat) new
    /\ exports w' = exports w ++ written
    /\ files w' = list_to_set (map fst written) ∪ files w
    /\ NoDup (map fst written)
    /\ Forall (fun p => p ∉ files w) (map fst written)
    /\ (length new <= 2 * length written)%nat.

(** The exceptions that the editor lets escape. *)
Definition editor_error (e : Exn) : Prop :=
  e = EOFError \/ e = ValueError \/ e = MediaError.


(** * Properties *)

(** ** Comparisons *)

Lemma Qgtb_true (a b : Q) : Qgtb a b = true <-> b < a.
Proof.
  unfold Qgtb. rewrite negb_true_iff, <- not_true_iff_false, Qle_bool_iff.
  split; [apply Qnot_le_lt | apply Qlt_not_le].
Qed.

Lemma Qgtb_false (a b : Q) : Qgtb a b = false <-> a <= b.
Proof.
  unfold Qgtb. rewrite negb_false_iff. apply Qle_bool_iff.
Qed.

Lemma Qgeb_true (a b : Q) : Qgeb a b = true <-> b <= a.
Proof. unfold Qgeb. apply Qle_bool_iff. Qed.

Lemma Qgeb_false (a b : Q) : Qgeb a b = false <-> a < b.
Proof.
  unfold Qgeb. rewrite <- not_true_iff_false, Qle_bool_iff.
  split; [apply Qnot_le_lt | apply Qlt_not_le].
Qed.

(** ** Sequencing *)

Lemma bind_run {A B : Type} (m : Run A) (k : A -> Run B) (w : World) :
  (m ≫= k) w
  = match m w with
    | (Returned a, w') => k a w'
    | (Raised e, w') => (Raised e, w')
    | (OutOfFuel, w') => (OutOfFuel, w')
    end.
Proof. reflexivity. Qed.

(** Run the first statement of a sequence when it is one of the
    elementary ones. *)
Ltac step_bind :=
  rewrite bind_run;
  cbn [open_video close_video append_clip read_clips ret raise out_of_fuel].

(** ** The segmenter *)

Section Segmenter.

Variables min_duration max_duration : Q.
Variable known : Peak -> Prop.

Local Abbreviation emitted := (emitted_ok min_duration max_duration known).
Local Abbreviation invariant := (running_ok min_duration max_duration known).

Lemma running_init_ok : invariant running_init.
Proof.
  split; [constructor | left; repeat split].
Qed.

Lemma close_segment_ok r :
  invariant r -> Forall emitted (close_segment min_duration r).
Proof.
  intros [Hcuts Hlive]. unfold close_segment.
  destruct (Qgeb _ _) eqn:Hge; [| exact Hcuts].
  apply Qgeb_true in Hge.
  apply Forall_app; split; [exact Hcuts |].
  constructor; [| constructor].
  split; [exact Hge | exact Hlive].
Qed.

Lemma segment_step_ok r peak :
  invariant r -> known peak ->
  invariant (segment_step min_duration max_duration r peak).
Proof.
  intros Hr Hk. unfold segment_step.
  destruct (Qgtb _ _) eqn:Hgt.
  - split; cbn [cuts current_start current_end current_peaks].
    + now apply close_segment_ok.
    + destruct (Qlt_le_dec max_duration (snd peak - fst peak)) as [Hlong | Hfit].
      * right; right. exists peak. repeat split; assumption.
      * right; left. split; [discriminate | exact Hfit].
  - apply Qgtb_false in Hgt.
    destruct Hr as [Hcuts _].
    split; cbn [cuts current_start current_end current_peaks].
    + exact Hcuts.
    + right; left. split; [| exact Hgt].
      destruct (current_peaks r); discriminate.
Qed.

Lemma segment_loop_ok peak_times :
  forall r, invariant r -> Forall known peak_times ->
  invariant (segment_loop min_duration max_duration peak_times r).
Proof.
  unfold segment_loop.
  induction peak_times as [| peak rest IH]; intros r Hr Hall; cbn [fold_left].
  - exact Hr.
  - inversion Hall as [| ? ? Hpeak Hrest]; subst.
    apply IH; [| exact Hrest].
    now apply segment_step_ok.
Qed.

End Segmenter.

(** Every cut the segmenter emits reaches [min_duration] and has one of
    the three shapes, the exceptional interval being one of the input. *)
Lemma segmenter_ok peak_times min_duration max_duration :
  Forall (emitted_ok min_duration max_duration (fun p => In p peak_times))
    (segmenter peak_times min_duration max_duration).
Proof.
  unfold segmenter. apply close_segment_ok, segment_loop_ok.
  - apply running_init_ok.
  - apply Forall_forall. intros p Hp. now apply list_elem_of_In.
Qed.

(** C1, as stated, fails: one interval longer than [max_duration]
    becomes a clip of its own length; here 100 seconds under a cap of
    90. *)
Lemma segmenter_exceeds_max_duration :
  segmenter [(0, 100)] 30 90 = [(0, 100, [(0, 100)])]
  /\ ~ (30 <= 100 - 0 /\ 100 - 0 <= 90).
Proof.
  split; [reflexivity |].
  intros [_ Hcap]. revert Hcap. apply Qlt_not_le. reflexivity.
Qed.

(** C1 (amended): every cut emitted by the segmenter lasts at least
    [min_duration]; it lasts at most [max_duration] too, unless it is a
    single input interval that is itself longer than [max_duration], or
    the empty initial segment [(0, 0)] under a negative [max_duration]. *)
Theorem segmenter_duration_bounds (peak_times : list Peak)
    (min_duration max_duration : Q) (c : Cut) :
  In c (segmenter peak_times min_duration max_duration) ->
  min_duration <= cut_end c - cut_start c
  /\ (cut_end c - cut_start c <= max_duration
      \/ (exists p, In p peak_times /\ cut_peaks c = [p]
                    /\ cut_start c = fst p /\ cut_end c = snd p
                    /\ max_duration < snd p - fst p)
      \/ (cut_peaks c = [] /\ cut_start c = 0 /\ cut_end c = 0
          /\ max_duration < 0)).
Proof.
  intros Hc.
  pose proof (segmenter_ok peak_times min_duration max_duration) as Hall.
  rewrite Forall_forall in Hall.
  destruct (Hall c) as [Hmin Hshape]; [now apply list_elem_of_In |].
  split; [exact Hmin |].
  destruct Hshape as [(Hps & Hs & He) | [(_ & Hcap) | Hsingle]].
  - destruct (Qlt_le_dec max_duration 0) as [Hneg | Hpos].
    + right; right. repeat split; assumption.
    + left. rewrite Hs, He. lra.
  - left. exact Hcap.
  - right; left. exact Hsingle.
Qed.

Lemma segmenter_duration_bounds_witness :
  let c : Cut := (0, 40, [(0, 10); (15, 20); (25, 40)]) in
  5 <= cut_end c - cut_start c
  /\ (cut_end c - cut_start c <= 100
      \/ (exists p, In p [(0, 10); (15, 20); (25, 40)] /\ cut_peaks c = [p]
                    /\ cut_start c = fst p /\ cut_end c = snd p
                    /\ 100 < snd p - fst p)
      \/ (cut_peaks c = [] /\ cut_start c = 0 /\ cut_end c = 0 /\ 100 < 0)).
Proof.
  apply (segmenter_duration_bounds [(0, 10); (15, 20); (25, 40)] 5 100).
  left. reflexivity.
Defined.

(** C2: whatever the intervals, so in particular for non-overlapping
    intervals in increasing order of start, no cut emitted by the
    segmenter is strictly shorter than [min_duration]. *)
Theorem segmenter_never_short (peak_times : list Peak)
    (min_duration max_duration : Q) :
  Forall (fun c => ~ cut_end c - cut_start c < min_duration)
    (segmenter peak_times min_duration max_duration).
Proof.
  eapply Forall_impl; [apply segmenter_ok |].
  intros c [Hmin _]. now apply Qle_not_lt.
Qed.

(** C3: on [(0,10)], [(15,95)] with a cap of 90 and any [min_duration]
    up to 10, the segmenter closes [(0,10)] with its one interval when
    it meets [(15,95)], and emits [(15,95)] alone at the end of the
    input; both clips are rated 1. *)
Theorem segmenter_splits_at_cap (min_duration : Q) :
  min_duration <= 10 ->
  segment_loop min_duration 90 [(0, 10); (15, 95)] running_init
    = {| cuts := [(0, 10, [(0, 10)])];
         current_start := 15; current_end := 95;
         current_peaks := [(15, 95)] |}
  /\ segmenter [(0, 10); (15, 95)] min_duration 90
    = [(0, 10, [(0, 10)]); (15, 95, [(15, 95)])]
  /\ rate_cuts (segmenter [(0, 10); (15, 95)] min_duration 90)
    = [(0, 10, 1%nat); (15, 95, 1%nat)].
Proof.
  intros Hmin.
  assert (Hfirst : Qgeb (10 - 0) min_duration = true) by (apply Qgeb_true; lra).
  assert (Hlast : Qgeb (95 - 15) min_duration = true) by (apply Qgeb_true; lra).
  assert (Hloop : segment_loop min_duration 90 [(0, 10); (15, 95)] running_init
    = {| cuts := [(0, 10, [(0, 10)])];
         current_start := 15; current_end := 95;
         current_peaks := [(15, 95)] |}).
  { unfold segment_loop, segment_step, close_segment; cbn.
    replace (Qgtb (10 - 0) 90) with false by reflexivity.
    replace (Qgtb (95 - 0) 90) with true by reflexivity.
    cbn. rewrite Hfirst. reflexivity. }
  assert (Hcuts : segmenter [(0, 10); (15, 95)] min_duration 90
    = [(0, 10, [(0, 10)]); (15, 95, [(15, 95)])]).
  { unfold segmenter. rewrite Hloop. unfold close_segment; cbn.
    rewrite Hlast. reflexivity. }
  split; [exact Hloop |]. split; [exact Hcuts |].
  rewrite Hcuts. reflexivity.
Qed.

Lemma segmenter_splits_at_cap_witness :
  segment_loop 10 90 [(0, 10); (15, 95)] running_init
    = {| cuts := [(0, 10, [(0, 10)])];
         current_start := 15; current_end := 95;
         current_peaks := [(15, 95)] |}
  /\ segmenter [(0, 10); (15, 95)] 10 90
    = [(0, 10, [(0, 10)]); (15, 95, [(15, 95)])]
  /\ rate_cuts (segmenter [(0, 10); (15, 95)] 10 90)
    = [(0, 10, 1%nat); (15, 95, 1%nat)].
Proof.
  apply (segmenter_splits_at_cap 10). apply Qle_refl.
Defined.

(** ** The selector *)

Lemma insert_by_rating_perm (c : Clip) (l : list Clip) :
  Permutation (c :: l) (insert_by_rating c l).
Proof.
  induction l as [| d l IH]; cbn [insert_by_rating].
  - reflexivity.
  - destruct (clip_rating c <? clip_rating d)%nat.
    + rewrite <- IH. apply perm_swap.
    + reflexivity.
Qed.

Lemma sort_by_rating_perm (l : list Clip) :
  Permutation l (sort_by_rating l).
Proof.
  induction l as [| c l IH]; cbn [sort_by_rating fold_right].
  - reflexivity.
  - rewrite <- insert_by_rating_perm. now constructor.
Qed.

Lemma insert_by_rating_sorted (c : Clip) (l : list Clip) :
  StronglySorted rating_ge l -> StronglySorted rating_ge (insert_by_rating c l).
Proof.
  induction l as [| d l IH]; intros Hs; cbn [insert_by_rating].
  - repeat constructor.
  - inversion Hs as [| ? ? Hl Hd]; subst.
    destruct (clip_rating c <? clip_rating d)%nat eqn:Hlt.
    + apply Nat.ltb_lt in Hlt.
      constructor; [now apply IH |].
      rewrite <- insert_by_rating_perm.
      constructor; [unfold rating_ge; lia | exact Hd].
    + apply Nat.ltb_ge in Hlt.
      constructor; [exact Hs |].
      constructor; [exact Hlt |].
      eapply Forall_impl; [exact Hd |].
      unfold rating_ge. intros x Hx. lia.
Qed.

Lemma sort_by_rating_sorted (l : list Clip) :
  StronglySorted rating_ge (sort_by_rating l).
Proof.
  induction l as [| c l IH]; cbn [sort_by_rating fold_right].
  - constructor.
  - now apply insert_by_rating_sorted.
Qed.

(** Inserting [c] does not disturb the clips of any rating [r]: [c]
    lands in front of the clips of its own rating. *)
Lemma insert_by_rating_stable (r : nat) (c : Clip) (l : list Clip) :
  List.filter (has_rating r) (insert_by_rating c l)
  = List.filter (has_rating r) (c :: l).
Proof.
  induction l as [| d l IH]; cbn [insert_by_rating]; [reflexivity |].
  destruct (clip_rating c <? clip_rating d)%nat eqn:Hlt; [| reflexivity].
  apply Nat.ltb_lt in Hlt.
  cbn [List.filter] in *. rewrite IH. unfold has_rating.
  destruct (clip_rating c =? r)%nat eqn:Hc; [| reflexivity].
  apply Nat.eqb_eq in Hc.
  replace (clip_rating d =? r)%nat with false; [reflexivity |].
  symmetry. apply Nat.eqb_neq. lia.
Qed.

Lemma sort_by_rating_stable (r : nat) (l : list Clip) :
  List.filter (has_rating r) (sort_by_rating l) = List.filter (has_rating r) l.
Proof.
  induction l as [| c l IH]; cbn [sort_by_rating fold_right]; [reflexivity |].
  rewrite insert_by_rating_stable. cbn [List.filter].
  fold (sort_by_rating l). now rewrite IH.
Qed.

Lemma slice_to_incl {A : Type} (n : Z) (l : list A) (x : A) :
  In x (slice_to n l) -> In x l.
Proof.
  assert (Hfirst : forall k, In x (firstn k l) -> In x l).
  { intros k Hk. rewrite <- (firstn_skipn k l). apply in_or_app. now left. }
  unfold slice_to. destruct (0 <=? n)%Z; apply Hfirst.
Qed.

Lemma select_top_incl (rated_clips : list Clip) (n : Z) (c : Clip) :
  In c (select_top rated_clips n) -> In c rated_clips.
Proof.
  unfold select_top. intros Hc. apply slice_to_incl in Hc.
  eapply Permutation_in; [symmetry; apply sort_by_rating_perm | exact Hc].
Qed.

(** C4: the selector orders the candidates by rating, best first, with
    a stable sort (the clips of any one rating keep their order) and,
    for a count [num_clips] that is not negative, keeps the first
    [num_clips] of them; on [(0,10,2)], [(10,20,5)], [(20,30,5)] with
    [num_clips = 2] it returns [(10,20,5)], [(20,30,5)]. *)
Theorem select_top_sorted_prefix (rated_clips : list Clip) (num_clips : Z) :
  (0 <= num_clips)%Z ->
  Permutation rated_clips (sort_by_rating rated_clips)
  /\ StronglySorted rating_ge (sort_by_rating rated_clips)
  /\ (forall r, List.filter (has_rating r) (sort_by_rating rated_clips)
                = List.filter (has_rating r) rated_clips)
  /\ select_top rated_clips num_clips
     = firstn (Z.to_nat num_clips) (sort_by_rating rated_clips)
  /\ select_top [(0, 10, 2%nat); (10, 20, 5%nat); (20, 30, 5%nat)] 2
     = [(10, 20, 5%nat); (20, 30, 5%nat)].
Proof.
  intros Hn.
  split; [apply sort_by_rating_perm |].
  split; [apply sort_by_rating_sorted |].
  split; [intros r; apply sort_by_rating_stable |].
  split; [| reflexivity].
  unfold select_top, slice_to.
  destruct (0 <=? num_clips)%Z eqn:Hle; [reflexivity |].
  apply Z.leb_gt in Hle. lia.
Qed.

Lemma select_top_sorted_prefix_witness :
  let rated_clips : list Clip :=
    [(0, 10, 2%nat); (10, 20, 5%nat); (20, 30, 5%nat)] in
  Permutation rated_clips (sort_by_rating rated_clips)
  /\ StronglySorted rating_ge (sort_by_rating rated_clips)
  /\ (forall r, List.filter (has_rating r) (sort_by_rating rated_clips)
                = List.filter (has_rating r) rated_clips)
  /\ select_top rated_clips 2
     = firstn (Z.to_nat 2) (sort_by_rating rated_clips)
  /\ select_top [(0, 10, 2%nat); (10, 20, 5%nat); (20, 30, 5%nat)] 2
     = [(10, 20, 5%nat); (20, 30, 5%nat)].
Proof.
  apply (select_top_sorted_prefix
           [(0, 10, 2%nat); (10, 20, 5%nat); (20, 30, 5%nat)] 2).
  lia.
Defined.

(** ** Ratings of the candidates *)

(** What split_video_into_clips returns, when it returns. *)
Lemma split_video_into_clips_returned (ext : Externals)
    (peak_times : list Peak) (output_folder : string) (num_clips : Z)
    (min_duration max_duration : Q) (w w' : World) (selected : list Clip) :
  split_video_into_clips ext peak_times output_folder num_clips
    min_duration max_duration w = (Returned selected, w') ->
  selected
  = select_top (rate_cuts (segmenter peak_times min_duration max_duration))
      num_clips.
Proof.
  unfold split_video_into_clips. rewrite bind_run. cbn [open_video].
  rewrite bind_run.
  destruct (export_clips _ _ _ _ _) as [[[] | e |] w2];
    intros Heq; inversion Heq; reflexivity.
Qed.

(** C10: with a positive [min_duration], every cut emitted by the
    segmenter has absorbed at least one interval, the empty initial
    segment [(0, 0, [])] is not emitted, and every clip returned by
    split_video_into_clips has a rating of at least 1 (the editor, for
    its part, appends clips rated 0 only). *)
Theorem segmenter_rating_positive (peak_times : list Peak)
    (min_duration max_duration : Q) :
  0 < min_duration ->
  Forall (fun c => (1 <= rate_clip (cut_peaks c))%nat)
    (segmenter peak_times min_duration max_duration)
  /\ ~ In (0, 0, []) (segmenter peak_times min_duration max_duration)
  /\ (forall ext output_folder num_clips w selected w',
        split_video_into_clips ext peak_times output_folder num_clips
          min_duration max_duration w = (Returned selected, w') ->
        Forall (fun c => (1 <= clip_rating c)%nat) selected).
Proof.
  intros Hpos.
  assert (Hcuts : Forall (fun c => (1 <= rate_clip (cut_peaks c))%nat)
            (segmenter peak_times min_duration max_duration)).
  { eapply Forall_impl; [apply segmenter_ok |].
    intros c [Hmin Hshape]. unfold rate_clip.
    destruct Hshape as [(_ & Hs & He) | [(Hps & _) | (p & _ & Hps & _)]].
    - rewrite Hs, He in Hmin. lra.
    - destruct (cut_peaks c); [contradiction | cbn; lia].
    - rewrite Hps. cbn. lia. }
  split; [exact Hcuts |]. split.
  - intros Hin. rewrite Forall_forall in Hcuts.
    apply list_elem_of_In, Hcuts in Hin. cbn in Hin. lia.
  - intros ext output_folder num_clips w selected w' Hrun.
    apply split_video_into_clips_returned in Hrun. subst selected.
    apply Forall_forall. intros c Hc.
    apply list_elem_of_In, select_top_incl in Hc.
    unfold rate_cuts in Hc. apply in_map_iff in Hc.
    destruct Hc as (cut & <- & Hcut).
    rewrite Forall_forall in Hcuts.
    apply list_elem_of_In, Hcuts in Hcut. exact Hcut.
Qed.

Lemma segmenter_rating_positive_witness :
  let peak_times : list Peak := [(0, 10); (15, 20); (25, 40)] in
  Forall (fun c => (1 <= rate_clip (cut_peaks c))%nat)
    (segmenter peak_times 5 100)
  /\ ~ In (0, 0, []) (segmenter peak_times 5 100)
  /\ (forall ext output_folder num_clips w selected w',
        split_video_into_clips ext peak_times output_folder num_clips
          5 100 w = (Returned selected, w') ->
        Forall (fun c => (1 <= clip_rating c)%nat) selected).
Proof.
  apply (segmenter_rating_positive [(0, 10); (15, 20); (25, 40)] 5 100).
  reflexivity.
Defined.

(** ** File names *)

Lemma string_app_assoc (a b c : string) : (a +:+ b) +:+ c = a +:+ b +:+ c.
Proof.
  induction a as [| x a IH]; [reflexivity |].
  change (String x ((a +:+ b) +:+ c) = String x (a +:+ b +:+ c)).
  now f_equal.
Qed.

Lemma string_app_length (a b : string) :
  String.length (a +:+ b) = (String.length a + String.length b)%nat.
Proof.
  induction a as [| x a IH]; [reflexivity |].
  change (S (String.length (a +:+ b))
          = S (String.length a + String.length b)).
  now f_equal.
Qed.

Lemma string_app_inj_r (s a b : string) : a +:+ s = b +:+ s -> a = b.
Proof.
  assert (Hlonger : forall c t, s <> String c (t +:+ s)).
  { intros c t Heq. apply (f_equal String.length) in Heq.
    change (String.length s = S (String.length (t +:+ s))) in Heq.
    rewrite string_app_length in Heq. lia. }
  revert b. induction a as [| x a IH]; intros [| y b] Heq.
  - reflexivity.
  - now apply Hlonger in Heq.
  - symmetry in Heq. now apply Hlonger in Heq.
  - change (String x (a +:+ s) = String y (b +:+ s)) in Heq.
    injection Heq as -> Heq. f_equal. now apply IH.
Qed.

Lemma str_of_nat_inj (j k : nat) : str_of_nat j = str_of_nat k -> j = k.
Proof.
  unfold str_of_nat. intros Heq.
  apply (f_equal NilEmpty.uint_of_string) in Heq.
  rewrite !NilEmpty.usu in Heq. injection Heq as Heq.
  apply (f_equal Nat.of_uint) in Heq.
  now rewrite !Unsigned.of_to in Heq.
Qed.

(** For a name that begins with [base_name] and an underscore,
    [path_join] puts one and the same prefix in front of the name. *)
Lemma path_join_prefix (output_folder base_name : string) :
  exists pre, forall rest,
    path_join output_folder (base_name +:+ "_" +:+ rest)
    = pre +:+ base_name +:+ "_" +:+ rest.
Proof.
  unfold path_join.
  assert (Hsep : forall rest,
    starts_with_sep (base_name +:+ "_" +:+ rest) = starts_with_sep base_name).
  { intros rest. destruct base_name; reflexivity. }
  destruct (starts_with_sep base_name) eqn:Hbase.
  - exists ""%string. intros rest. now rewrite Hsep.
  - destruct (String.eqb output_folder "" || ends_with_sep output_folder).
    + exists output_folder. intros rest. now rewrite Hsep.
    + exists (output_folder +:+ "/")%string. intros rest.
      now rewrite Hsep, string_app_assoc.
Qed.

Lemma candidate_path_inj (output_folder base_name extension : string)
    (j k : nat) :
  candidate_path output_folder base_name extension j
  = candidate_path output_folder base_name extension k ->
  j = k.
Proof.
  unfold candidate_path.
  destruct (path_join_prefix output_folder base_name) as [pre Hpre].
  rewrite !Hpre. intros Heq.
  do 3 apply String.app_inj in Heq.
  apply string_app_inj_r in Heq. now apply str_of_nat_inj.
Qed.

Section UniqueFilename.

Variable fs : gset string.
Variables output_folder base_name extension : string.

Local Abbreviation cand := (candidate_path output_folder base_name extension).
Local Abbreviation loop :=
  (fun fuel => get_unique_filename_loop fuel fs output_folder base_name
                 extension).

(** A result of the loop is the first free candidate from [counter] on. *)
Lemma get_unique_filename_loop_some (fuel : nat) :
  forall counter p, loop fuel counter = Some p ->
  exists k, (counter <= k)%nat /\ p = cand k /\ (cand k ∉ fs)
            /\ forall j, (counter <= j < k)%nat -> cand j ∈ fs.
Proof.
  induction fuel as [| fuel IH]; intros counter p; cbn; [discriminate |].
  case_bool_decide as Hin.
  - intros Hrun. destruct (IH _ _ Hrun) as (k & Hk & Hp & Hfree & Hbusy).
    exists k. repeat split; [lia | assumption | assumption |].
    intros j Hj. destruct (decide (j = counter)) as [-> | Hne];
      [assumption | apply Hbusy; lia].
  - intros [= <-]. exists counter. repeat split; [lia | assumption |].
    intros j Hj. lia.
Qed.

(** The loop gives up only when every candidate it tried exists. *)
Lemma get_unique_filename_loop_none (fuel : nat) :
  forall counter, loop fuel counter = None ->
  forall j, (counter <= j < counter + fuel)%nat -> cand j ∈ fs.
Proof.
  induction fuel as [| fuel IH]; intros counter; cbn; [intros _ j Hj; lia |].
  case_bool_decide as Hin; [| discriminate].
  intros Hrun j Hj. destruct (decide (j = counter)) as [-> | Hne];
    [assumption | apply (IH _ Hrun); lia].
Qed.

(** Distinct counters give distinct paths, so [size fs + 1] candidates
    cannot all exist: the loop of get_unique_filename terminates. *)
Lemma get_unique_filename_total :
  exists p, get_unique_filename fs output_folder base_name extension = Some p.
Proof.
  unfold get_unique_filename.
  destruct (loop (S (size fs)) 1%nat) as [p |] eqn:Hrun; [now exists p |].
  exfalso.
  pose proof (get_unique_filename_loop_none _ _ Hrun) as Hall.
  set (l := cand <$> seq 1 (S (size fs))).
  assert (Hnodup : NoDup l).
  { apply NoDup_fmap_2_strong; [| apply NoDup_seq].
    intros x y _ _. apply candidate_path_inj. }
  assert (Hsub : (list_to_set l : gset string) ⊆ fs).
  { intros p Hp. apply elem_of_list_to_set, list_elem_of_fmap in Hp.
    destruct Hp as (j & -> & Hj). apply elem_of_seq in Hj.
    apply Hall. lia. }
  apply subseteq_size in Hsub.
  rewrite size_list_to_set in Hsub by exact Hnodup.
  unfold l in Hsub. rewrite length_fmap, length_seq in Hsub. lia.
Qed.

End UniqueFilename.

(** C8: get_unique_filename returns, for the smallest [k >= 1] whose
    path does not exist, the path that [os.path.join] makes of
    [output_folder] and [base_name_k.extension] (which is
    [output_folder/base_name_k.extension] for a plain folder and base
    name); when [out/clip_1_modified_1.mp4] exists and
    [out/clip_1_modified_2.mp4] does not, the result is the latter. *)
Theorem get_unique_filename_least (fs : gset string)
    (output_folder base_name extension : string) :
  (exists k,
     (1 <= k)%nat
     /\ get_unique_filename fs output_folder base_name extension
        = Some (candidate_path output_folder base_name extension k)
     /\ (candidate_path output_folder base_name extension k ∉ fs)
     /\ forall j, (1 <= j < k)%nat ->
          candidate_path output_folder base_name extension j ∈ fs)
  /\ (starts_with_sep base_name = false ->
      output_folder <> ""%string -> ends_with_sep output_folder = false ->
      forall k, candidate_path output_folder base_name extension k
                = output_folder +:+ "/" +:+ base_name +:+ "_"
                    +:+ str_of_nat k +:+ "." +:+ extension)
  /\ ("out/clip_1_modified_1.mp4" ∈ fs ->
      "out/clip_1_modified_2.mp4" ∉ fs ->
      get_unique_filename fs "out" "clip_1_modified" "mp4"
      = Some "out/clip_1_modified_2.mp4"%string).
Proof.
  split; [| split].
  - destruct (get_unique_filename_total fs output_folder base_name extension)
      as [p Hp].
    pose proof Hp as Hrun. unfold get_unique_filename in Hrun.
    apply get_unique_filename_loop_some in Hrun.
    destruct Hrun as (k & Hk & -> & Hfree & Hbusy).
    exists k. repeat split; assumption.
  - intros Hbase Hfolder Hend k. unfold candidate_path, path_join.
    replace (starts_with_sep (base_name +:+ "_" +:+ str_of_nat k
                                +:+ "." +:+ extension)) with false
      by (destruct base_name; [reflexivity | exact (eq_sym Hbase)]).
    rewrite Hend.
    destruct (String.eqb output_folder "") eqn:Hempty; [| reflexivity].
    now apply String.eqb_eq in Hempty.
  - intros Hfirst Hsecond. unfold get_unique_filename.
    destruct (size fs) as [| n] eqn:Hsize.
    + apply size_empty_inv in Hsize. set_solver.
    + cbn [get_unique_filename_loop].
      change (candidate_path "out" "clip_1_modified" "mp4" 1)
        with "out/clip_1_modified_1.mp4"%string.
      change (candidate_path "out" "clip_1_modified" "mp4" 2)
        with "out/clip_1_modified_2.mp4"%string.
      rewrite bool_decide_eq_true_2 by exact Hfirst.
      rewrite bool_decide_eq_false_2 by exact Hsecond.
      reflexivity.
Qed.

Lemma get_unique_filename_least_witness :
  get_unique_filename {["out/clip_1_modified_1.mp4"%string]}
    "out" "clip_1_modified" "mp4"
  = Some "out/clip_1_modified_2.mp4"%string.
Proof.
  apply (get_unique_filename_least {["out/clip_1_modified_1.mp4"%string]}
           "out" "clip_1_modified" "mp4").
  - apply elem_of_singleton. reflexivity.
  - rewrite elem_of_singleton. discriminate.
Defined.

(** ** The editor *)

Lemma get_unique_filename_fresh (fs : gset string)
    (output_folder base_name extension p : string) :
  get_unique_filename fs output_folder base_name extension = Some p ->
  p ∉ fs.
Proof.
  unfold get_unique_filename. intros Hrun.
  apply get_unique_filename_loop_some in Hrun.
  now destruct Hrun as (k & _ & -> & Hfree & _).
Qed.

Section Editor.

Variable ext : Externals.
Variable output_folder : string.
Variable clip_index : Z.
Variables start_time end_time : Q.

Local Abbreviation run := (modify_clip ext output_folder clip_index
                             start_time end_time).
Local Abbreviation loop := (modify_loop ext output_folder clip_index
                              start_time end_time).

(** The common tail of the loop: the name is fresh, and the encoder
    decides between the export and a [MediaError]. *)
Lemma export_modified_result (new_start new_end : Q) (stdin : list string)
    (w : World) :
  exists path,
    get_unique_filename (files w) output_folder (modified_name clip_index)
      "mp4" = Some path
    /\ (path ∉ files w)
    /\ export_modified ext output_folder clip_index new_start new_end stdin w
       = if encodes ext path [(new_start, new_end)] then
           (Returned stdin,
            {| files := {[path]} ∪ files w;
               open_videos := open_videos w;
               exports := exports w ++ [(path, [(new_start, new_end)])];
               clips := clips w ++ [(new_start, new_end, 0%nat)] |})
         else (Raised MediaError, w).
Proof.
  destruct (get_unique_filename_total (files w) output_folder
              (modified_name clip_index) "mp4") as [path Hpath].
  exists path. split; [exact Hpath |].
  split; [now apply get_unique_filename_fresh in Hpath |].
  unfold export_modified. fold (modified_name clip_index).
  rewrite bind_run. unfold unique_filename. rewrite Hpath.
  rewrite bind_run. unfold write_videofile.
  now destruct (encodes ext path _).
Qed.

Lemma trim_middle_result (middle_start middle_end : Q) (stdin : list string)
    (w : World) :
  exists path,
    get_unique_filename (files w) output_folder
      (middle_trimmed_name clip_index) "mp4" = Some path
    /\ (path ∉ files w)
    /\ trim_middle ext output_folder clip_index start_time end_time
         middle_start middle_end stdin w
       = if encodes ext path [(start_time, start_time + middle_start);
                              (start_time + middle_end, end_time)] then
           (Returned stdin,
            {| files := {[path]} ∪ files w;
               open_videos := open_videos w;
               exports := exports w
                 ++ [(path, [(start_time, start_time + middle_start);
                             (start_time + middle_end, end_time)])];
               clips := clips w
                 ++ [(start_time, start_time + middle_start, 0%nat);
                     (start_time + middle_end, end_time, 0%nat)] |})
         else (Raised MediaError, w).
Proof.
  destruct (get_unique_filename_total (files w) output_folder
              (middle_trimmed_name clip_index) "mp4") as [path Hpath].
  exists path. split; [exact Hpath |].
  split; [now apply get_unique_filename_fresh in Hpath |].
  unfold trim_middle. fold (middle_trimmed_name clip_index).
  rewrite bind_run. unfold unique_filename. rewrite Hpath.
  rewrite bind_run. unfold write_videofile.
  destruct (encodes ext path _); [| reflexivity].
  do 2 step_bind. cbn [clips]. now rewrite <- app_assoc.
Qed.

(** From the two lemmas above to [edit_result], for a run of
    modify_clip that goes straight to an export. *)
Lemma edit_result_of_export (w : World) (stdin rest : list string)
    (new_start new_end : Q) (path : string) :
  run stdin w
  = export_modified ext output_folder clip_index new_start new_end rest
      (with_video_open w) ->
  get_unique_filename (files w) output_folder (modified_name clip_index)
    "mp4" = Some path ->
  edit_result ext w (run stdin w) rest path
    [(new_start, new_end)] [(new_start, new_end, 0%nat)].
Proof.
  intros -> Hpath.
  destruct (export_modified_result new_start new_end rest (with_video_open w))
    as (path' & Hpath' & _ & ->).
  cbn [files with_video_open] in Hpath'. rewrite Hpath in Hpath'.
  injection Hpath' as <-.
  unfold edit_result. destruct (encodes ext path _).
  - eexists. split; [reflexivity |]. now cbn.
  - eexists. split; [reflexivity |]. now cbn.
Qed.

Lemma read_float_some {A : Type} (line : string) (x : Q)
    (stdin : list string) (k : Q -> list string -> Run A) :
  to_float ext line = Some x ->
  read_float ext (line :: stdin) k = k x stdin.
Proof. intros Hx. cbn [read_float]. now rewrite Hx. Qed.

Lemma modify_clip_run (stdin : list string) (w : World) :
  run stdin w = loop stdin (with_video_open w).
Proof. reflexivity. Qed.

(** C6: for the selected clip [(start_time, end_time)] and seconds
    [front] and [back] typed by the user, Add Front, Add Back and Add
    Both export the range from [max(start_time - front, 0)] (Front,
    Both; else [start_time]) to [min(end_time + back, video_duration)]
    (Back, Both; else [end_time]) under a fresh name and append it to
    the clip list with rating 0; the new start is not below 0 and the
    new end not above [video_duration]. *)
Theorem modify_clip_add_clamps (w : World) (rest : list string)
    (front_line back_line : string) (front_time back_time : Q) :
  to_float ext front_line = Some front_time ->
  to_float ext back_line = Some back_time ->
  let new_start := Qmax (start_time - front_time) 0 in
  let new_end := Qmin (end_time + back_time) (video_duration ext) in
  exists path,
    get_unique_filename (files w) output_folder (modified_name clip_index)
      "mp4" = Some path
    /\ (path ∉ files w)
    /\ edit_result ext w (run ("1" :: "1" :: front_line :: rest)%string w)
         rest path [(new_start, end_time)] [(new_start, end_time, 0%nat)]
    /\ edit_result ext w (run ("1" :: "2" :: back_line :: rest)%string w)
         rest path [(start_time, new_end)] [(start_time, new_end, 0%nat)]
    /\ edit_result ext w
         (run ("1" :: "3" :: front_line :: back_line :: rest)%string w)
         rest path [(new_start, new_end)] [(new_start, new_end, 0%nat)]
    /\ 0 <= new_start
    /\ new_end <= video_duration ext.
Proof.
  intros Hfront Hback new_start new_end.
  destruct (get_unique_filename_total (files w) output_folder
              (modified_name clip_index) "mp4") as [path Hpath].
  exists path. split; [exact Hpath |].
  split; [now apply get_unique_filename_fresh in Hpath |].
  split; [| split; [| split; [| split]]].
  - apply edit_result_of_export; [| exact Hpath].
    rewrite modify_clip_run.
    change (loop ("1" :: "1" :: front_line :: rest)%string)
      with (read_float ext (front_line :: rest)
              (fun front_time stdin3 =>
                 export_modified ext output_folder clip_index
                   (Qmax (start_time - front_time) 0) end_time stdin3)).
    now rewrite (read_float_some _ _ _ _ Hfront).
  - apply edit_result_of_export; [| exact Hpath].
    rewrite modify_clip_run.
    change (loop ("1" :: "2" :: back_line :: rest)%string)
      with (read_float ext (back_line :: rest)
              (fun back_time stdin3 =>
                 export_modified ext output_folder clip_index start_time
                   (Qmin (end_time + back_time) (video_duration ext))
                   stdin3)).
    now rewrite (read_float_some _ _ _ _ Hback).
  - apply edit_result_of_export; [| exact Hpath].
    rewrite modify_clip_run.
    change (loop ("1" :: "3" :: front_line :: back_line :: rest)%string)
      with (read_float ext (front_line :: back_line :: rest)
              (fun front_time stdin3 =>
               read_float ext stdin3
                 (fun back_time stdin4 =>
                    export_modified ext output_folder clip_index
                      (Qmax (start_time - front_time) 0)
                      (Qmin (end_time + back_time) (video_duration ext))
                      stdin4))).
    rewrite (read_float_some _ _ _ _ Hfront).
    now rewrite (read_float_some _ _ _ _ Hback).
  - apply Q.le_max_r.
  - apply Q.le_min_r.
Qed.

(** C5: for the selected clip [(start_time, end_time)] and offsets
    [middle_start], [middle_end] typed by the user, Trim-Middle exports
    to one fresh file the concatenation of
    [(start_time, start_time + middle_start)] and
    [(start_time + middle_end, end_time)], appends these two ranges to
    the clip list with rating 0, and returns: the menu loop of
    interactive_modification goes on with the rest of the input. For
    clip [(100,160,3)] and offsets 20 and 40 the ranges are [(100,120)]
    and [(140,160)]. *)
Theorem modify_clip_trim_middle (w : World) (rest : list string)
    (start_line end_line : string) (middle_start middle_end : Q) :
  to_float ext start_line = Some middle_start ->
  to_float ext end_line = Some middle_end ->
  let stdin := ("2" :: "4" :: start_line :: end_line :: rest)%string in
  let ranges := [(start_time, start_time + middle_start);
                 (start_time + middle_end, end_time)] in
  exists path,
    get_unique_filename (files w) output_folder
      (middle_trimmed_name clip_index) "mp4" = Some path
    /\ (path ∉ files w)
    /\ edit_result ext w (run stdin w) rest path ranges
         [(start_time, start_time + middle_start, 0%nat);
          (start_time + middle_end, end_time, 0%nat)]
    /\ (forall line rating fuel,
          lower line <> "done"%string ->
          to_int ext line = Some clip_index ->
          (1 <= clip_index)%Z ->
          nth_error (clips w) (Z.to_nat (clip_index - 1))
            = Some (start_time, end_time, rating) ->
          encodes ext path ranges = true ->
          exists w', run stdin w = (Returned rest, w')
            /\ interactive_modification (S fuel) ext output_folder
                 (line :: stdin) w
               = interactive_modification fuel ext output_folder rest w').
Proof.
  intros Hstart Hend stdin ranges.
  destruct (trim_middle_result middle_start middle_end rest
              (with_video_open w)) as (path & Hpath & Hfresh & Htrim).
  cbn [files with_video_open] in Hpath, Hfresh.
  assert (Hrun : run stdin w
                 = trim_middle ext output_folder clip_index start_time
                     end_time middle_start middle_end rest
                     (with_video_open w)).
  { rewrite modify_clip_run. unfold stdin.
    change (loop ("2" :: "4" :: start_line :: end_line :: rest)%string)
      with (read_float ext (start_line :: end_line :: rest)
              (fun middle_start stdin3 =>
               read_float ext stdin3
                 (fun middle_end stdin4 =>
                    trim_middle ext output_folder clip_index start_time
                      end_time middle_start middle_end stdin4))).
    rewrite (read_float_some _ _ _ _ Hstart).
    now rewrite (read_float_some _ _ _ _ Hend). }
  exists path. split; [exact Hpath |]. split; [exact Hfresh |]. split.
  - rewrite Hrun, Htrim. unfold edit_result. fold ranges.
    destruct (encodes ext path ranges).
    + eexists. split; [reflexivity |]. now cbn.
    + eexists. split; [reflexivity |]. now cbn.
  - intros line rating fuel Hdone Hint Hone Hnth Henc.
    rewrite Hrun, Htrim. fold ranges. rewrite Henc.
    eexists. split; [reflexivity |].
    cbn [interactive_modification].
    apply String.eqb_neq in Hdone. rewrite Hdone, Hint.
    assert (Hlen : (Z.to_nat (clip_index - 1) < length (clips w))%nat).
    { apply nth_error_Some. rewrite Hnth. discriminate. }
    rewrite bind_run. cbn [read_clips].
    replace (clip_index <? 1)%Z with false by (symmetry; apply Z.ltb_ge; lia).
    replace (Z.of_nat (length (clips w)) <? clip_index)%Z with false
      by (symmetry; apply Z.ltb_ge; lia).
    cbn [orb]. rewrite bind_run. unfold clip_at. rewrite Hnth.
    cbn [clip_start clip_end fst snd].
    rewrite bind_run. fold stdin. rewrite Hrun, Htrim. fold ranges.
    now rewrite Henc.
Qed.

(** *** Every run of the loop *)

Local Abbreviation effects := (edit_effects output_folder clip_index).

(** Lines that the loop read and ignored go in front of the command. *)
Lemma edit_effects_skip (skipped : list string) (w : World)
    (stdin rest : list string) (w' : World) :
  effects w stdin rest w' -> effects w (skipped ++ stdin) rest w'.
Proof.
  intros [(pre & -> & H) | [(pre & m & t & args & path & a & b & -> & H)
                           | (pre & l1 & l2 & path & a & b & c & d & -> & H)]].
  - left. exists (skipped ++ pre). now rewrite <- app_assoc.
  - right; left. exists (skipped ++ pre), m, t, args, path, a, b.
    now rewrite <- app_assoc.
  - right; right. exists (skipped ++ pre), l1, l2, path, a, b, c, d.
    now rewrite <- app_assoc.
Qed.

Lemma read_float_inv {A : Type} (stdin : list string) (w : World)
    (k : Q -> list string -> Run A) (o : Outcome A) (w' : World) :
  read_float ext stdin k w = (o, w') ->
  (w' = w /\ forall a, o <> Returned a)
  \/ (exists line x stdin', stdin = line :: stdin' /\ k x stdin' w = (o, w')).
Proof.
  destruct stdin as [| line stdin']; cbn [read_float].
  - intros [= <- <-]. left. now split.
  - destruct (to_float ext line) as [x |].
    + intros Hk. right. now exists line, x, stdin'.
    + intros [= <- <-]. left. now split.
Qed.

(** The last three lemmas of the case analysis: a branch that reads
    one number, or two, and exports; and the Trim-Middle branch. *)
Lemma one_float_branch (new_start new_end : Q -> Q) (m t : string)
    (stdin : list string) (w : World)
    (o : Outcome (list string)) (w' : World) :
  single_choice m t ->
  read_float ext stdin (fun x stdin' =>
    export_modified ext output_folder clip_index (new_start x) (new_end x)
      stdin') w = (o, w') ->
  open_videos w' = open_videos w
  /\ forall rest, o = Returned rest -> effects w (m :: t :: stdin) rest w'.
Proof.
  intros Hchoice Hrun.
  apply read_float_inv in Hrun.
  destruct Hrun as [[-> Hraised] | (line & x & stdin' & -> & Hrun)].
  { split; [reflexivity |]. intros rest ->. now destruct (Hraised rest). }
  destruct (export_modified_result (new_start x) (new_end x) stdin' w)
    as (path & Hpath & Hfresh & Hexport).
  rewrite Hexport in Hrun.
  destruct (encodes ext path _); injection Hrun as <- <-.
  - split; [reflexivity |]. intros rest [= <-].
    right; left.
    exists [], m, t, [line], path, (new_start x), (new_end x).
    split; [reflexivity |]. split; [exact Hchoice |].
    split; [exact Hpath |]. split; [exact Hfresh |]. now cbn.
  - split; [reflexivity |]. discriminate.
Qed.

Lemma two_float_branch (new_start new_end : Q -> Q -> Q) (m t : string)
    (stdin : list string) (w : World)
    (o : Outcome (list string)) (w' : World) :
  single_choice m t ->
  read_float ext stdin (fun x stdin' =>
    read_float ext stdin' (fun y stdin'' =>
      export_modified ext output_folder clip_index
        (new_start x y) (new_end x y) stdin'')) w = (o, w') ->
  open_videos w' = open_videos w
  /\ forall rest, o = Returned rest -> effects w (m :: t :: stdin) rest w'.
Proof.
  intros Hchoice Hrun.
  apply read_float_inv in Hrun.
  destruct Hrun as [[-> Hraised] | (line1 & x & stdin' & -> & Hrun)].
  { split; [reflexivity |]. intros rest ->. now destruct (Hraised rest). }
  apply read_float_inv in Hrun.
  destruct Hrun as [[-> Hraised] | (line2 & y & stdin'' & -> & Hrun)].
  { split; [reflexivity |]. intros rest ->. now destruct (Hraised rest). }
  destruct (export_modified_result (new_start x y) (new_end x y) stdin'' w)
    as (path & Hpath & Hfresh & Hexport).
  rewrite Hexport in Hrun.
  destruct (encodes ext path _); injection Hrun as <- <-.
  - split; [reflexivity |]. intros rest [= <-].
    right; left.
    exists [], m, t, [line1; line2], path, (new_start x y), (new_end x y).
    split; [reflexivity |]. split; [exact Hchoice |].
    split; [exact Hpath |]. split; [exact Hfresh |]. now cbn.
  - split; [reflexivity |]. discriminate.
Qed.

Lemma middle_branch (stdin : list string) (w : World)
    (o : Outcome (list string)) (w' : World) :
  read_float ext stdin (fun x stdin' =>
    read_float ext stdin' (fun y stdin'' =>
      trim_middle ext output_folder clip_index start_time end_time x y
        stdin'')) w = (o, w') ->
  open_videos w' = open_videos w
  /\ forall rest, o = Returned rest ->
       effects w ("2" :: "4" :: stdin)%string rest w'.
Proof.
  intros Hrun.
  apply read_float_inv in Hrun.
  destruct Hrun as [[-> Hraised] | (line1 & x & stdin' & -> & Hrun)].
  { split; [reflexivity |]. intros rest ->. now destruct (Hraised rest). }
  apply read_float_inv in Hrun.
  destruct Hrun as [[-> Hraised] | (line2 & y & stdin'' & -> & Hrun)].
  { split; [reflexivity |]. intros rest ->. now destruct (Hraised rest). }
  destruct (trim_middle_result x y stdin'' w)
    as (path & Hpath & Hfresh & Htrim).
  rewrite Htrim in Hrun.
  destruct (encodes ext path _); injection Hrun as <- <-.
  - split; [reflexivity |]. intros rest [= <-].
    right; right.
    exists [], line1, line2, path, start_time, (start_time + x),
      (start_time + y), end_time.
    split; [reflexivity |].
    split; [exact Hpath |]. split; [exact Hfresh |]. now cbn.
  - split; [reflexivity |]. discriminate.
Qed.

(** The loop never touches the video handle, and a run that returns
    has had one of the three effects. *)
Lemma modify_loop_effects (n : nat) :
  forall stdin, (length stdin <= n)%nat ->
  forall w o w', loop stdin w = (o, w') ->
  open_videos w' = open_videos w
  /\ forall rest, o = Returned rest -> effects w stdin rest w'.
Proof.
  induction n as [| n IH]; intros stdin Hlen w o w' Hrun.
  { destruct stdin; [| cbn in Hlen; lia].
    injection Hrun as <- <-. split; [reflexivity | discriminate]. }
  destruct stdin as [| m stdin1]; cbn [modify_loop] in Hrun.
  { injection Hrun as <- <-. split; [reflexivity | discriminate]. }
  cbn [length] in Hlen.
  assert (Hagain1 : loop stdin1 w = (o, w') ->
    open_videos w' = open_videos w
    /\ forall rest, o = Returned rest -> effects w (m :: stdin1) rest w').
  { intros Hloop. destruct (IH stdin1 ltac:(lia) _ _ _ Hloop) as [Hopen Heff].
    split; [exact Hopen |]. intros rest Hrest.
    apply (edit_effects_skip [m]). now apply Heff. }
  destruct (String.eqb m "0") eqn:Hm0.
  { apply String.eqb_eq in Hm0. subst m. injection Hrun as <- <-.
    split; [reflexivity |]. intros rest [= <-].
    left. now exists []. }
  destruct (String.eqb m "1") eqn:Hm1;
    [| destruct (String.eqb m "2") eqn:Hm2; [| now apply Hagain1]].
  - apply String.eqb_eq in Hm1. subst m.
    destruct stdin1 as [| t stdin2].
    { injection Hrun as <- <-. split; [reflexivity | discriminate]. }
    cbn [length] in Hlen.
    assert (Hagain2 : loop stdin2 w = (o, w') ->
      open_videos w' = open_videos w
      /\ forall rest, o = Returned rest ->
           effects w ("1"%string :: t :: stdin2) rest w').
    { intros Hloop.
      destruct (IH stdin2 ltac:(lia) _ _ _ Hloop) as [Hopen Heff].
      split; [exact Hopen |]. intros rest Hrest.
      apply (edit_effects_skip ["1"%string; t]). now apply Heff. }
    destruct (String.eqb t "0"); [now apply Hagain2 |].
    destruct (String.eqb t "1") eqn:Ht1.
    { apply String.eqb_eq in Ht1. subst t.
      apply (one_float_branch
               (fun front_time => Qmax (start_time - front_time) 0)
               (fun _ => end_time)); [| exact Hrun].
      split; auto. }
    destruct (String.eqb t "2") eqn:Ht2.
    { apply String.eqb_eq in Ht2. subst t.
      apply (one_float_branch (fun _ => start_time)
               (fun back_time =>
                  Qmin (end_time + back_time) (video_duration ext)));
        [| exact Hrun].
      split; auto. }
    destruct (String.eqb t "3") eqn:Ht3; [| now apply Hagain2].
    apply String.eqb_eq in Ht3. subst t.
    apply (two_float_branch
             (fun front_time _ => Qmax (start_time - front_time) 0)
             (fun _ back_time =>
                Qmin (end_time + back_time) (video_duration ext)));
      [| exact Hrun].
    split; auto.
  - apply String.eqb_eq in Hm2. subst m.
    destruct stdin1 as [| t stdin2].
    { injection Hrun as <- <-. split; [reflexivity | discriminate]. }
    cbn [length] in Hlen.
    assert (Hagain2 : loop stdin2 w = (o, w') ->
      open_videos w' = open_videos w
      /\ forall rest, o = Returned rest ->
           effects w ("2"%string :: t :: stdin2) rest w').
    { intros Hloop.
      destruct (IH stdin2 ltac:(lia) _ _ _ Hloop) as [Hopen Heff].
      split; [exact Hopen |]. intros rest Hrest.
      apply (edit_effects_skip ["2"%string; t]). now apply Heff. }
    destruct (String.eqb t "0"); [now apply Hagain2 |].
    destruct (String.eqb t "1") eqn:Ht1.
    { apply String.eqb_eq in Ht1. subst t.
      apply (one_float_branch
               (fun front_time => start_time + front_time)
               (fun _ => end_time)); [| exact Hrun].
      split; auto. }
    destruct (String.eqb t "2") eqn:Ht2.
    { apply String.eqb_eq in Ht2. subst t.
      apply (one_float_branch (fun _ => start_time)
               (fun back_time => end_time - back_time)); [| exact Hrun].
      split; auto. }
    destruct (String.eqb t "3") eqn:Ht3.
    { apply String.eqb_eq in Ht3. subst t.
      apply (two_float_branch
               (fun front_time _ => start_time + front_time)
               (fun _ back_time => end_time - back_time)); [| exact Hrun].
      split; auto. }
    destruct (String.eqb t "4") eqn:Ht4; [| now apply Hagain2].
    apply String.eqb_eq in Ht4. subst t.
    now apply middle_branch.
Qed.

(** modify_clip opens a handle and no path through it closes one: the
    handle is still open when the function returns or raises. *)
Lemma modify_clip_keeps_handle_open (stdin : list string) (w : World)
    (o : Outcome (list string)) (w' : World) :
  run stdin w = (o, w') -> open_videos w' = S (open_videos w).
Proof.
  rewrite modify_clip_run. intros Hrun.
  now apply (modify_loop_effects (length stdin) stdin (Nat.le_refl _)) in Hrun.
Qed.

(** As [edit_result_of_export], for the Trim-Middle branch. *)
Lemma edit_result_of_middle (w : World) (stdin rest : list string)
    (middle_start middle_end : Q) (path : string) :
  run stdin w
  = trim_middle ext output_folder clip_index start_time end_time
      middle_start middle_end rest (with_video_open w) ->
  get_unique_filename (files w) output_folder
    (middle_trimmed_name clip_index) "mp4" = Some path ->
  edit_result ext w (run stdin w) rest path
    [(start_time, start_time + middle_start);
     (start_time + middle_end, end_time)]
    [(start_time, start_time + middle_start, 0%nat);
     (start_time + middle_end, end_time, 0%nat)].
Proof.
  intros -> Hpath.
  destruct (trim_middle_result middle_start middle_end rest
              (with_video_open w)) as (path' & Hpath' & _ & ->).
  cbn [files with_video_open] in Hpath'. rewrite Hpath in Hpath'.
  injection Hpath' as <-.
  unfold edit_result. destruct (encodes ext path _).
  - eexists. split; [reflexivity |]. now cbn.
  - eexists. split; [reflexivity |]. now cbn.
Qed.

(** The loop after a choice that reads numbers. *)
Ltac run_choice :=
  rewrite modify_clip_run;
  cbn [modify_loop String.eqb Ascii.eqb Bool.eqb read_float].

(** C7: for numbers [x] and [y] typed where the menu asks for them,
    each Add and each Trim of Front, Back or Both exports exactly one
    file that did not exist and appends exactly one clip, rated 0, to
    the end of the clip list; Trim-Middle exports exactly one such file
    and appends exactly two clips rated 0; Back exports and appends
    nothing; a line that is no choice of a menu is skipped. So every
    run of modify_clip that returns has had one of these three effects
    after the lines it skipped, and the entries the clip list had
    before are unchanged. *)
Theorem modify_clip_grows_clip_list (w : World) (rest : list string)
    (first_line second_line : string) (x y : Q) :
  to_float ext first_line = Some x ->
  to_float ext second_line = Some y ->
  exists path path_middle,
    get_unique_filename (files w) output_folder (modified_name clip_index)
      "mp4" = Some path
    /\ get_unique_filename (files w) output_folder
         (middle_trimmed_name clip_index) "mp4" = Some path_middle
    /\ (path ∉ files w) /\ (path_middle ∉ files w)
    /\ edit_result ext w (run ("1" :: "1" :: first_line :: rest)%string w)
         rest path [(Qmax (start_time - x) 0, end_time)]
         [(Qmax (start_time - x) 0, end_time, 0%nat)]
    /\ edit_result ext w (run ("1" :: "2" :: first_line :: rest)%string w)
         rest path [(start_time, Qmin (end_time + x) (video_duration ext))]
         [(start_time, Qmin (end_time + x) (video_duration ext), 0%nat)]
    /\ edit_result ext w
         (run ("1" :: "3" :: first_line :: second_line :: rest)%string w)
         rest path
         [(Qmax (start_time - x) 0,
           Qmin (end_time + y) (video_duration ext))]
         [(Qmax (start_time - x) 0,
           Qmin (end_time + y) (video_duration ext), 0%nat)]
    /\ edit_result ext w (run ("2" :: "1" :: first_line :: rest)%string w)
         rest path [(start_time + x, end_time)]
         [(start_time + x, end_time, 0%nat)]
    /\ edit_result ext w (run ("2" :: "2" :: first_line :: rest)%string w)
         rest path [(start_time, end_time - x)]
         [(start_time, end_time - x, 0%nat)]
    /\ edit_result ext w
         (run ("2" :: "3" :: first_line :: second_line :: rest)%string w)
         rest path [(start_time + x, end_time - y)]
         [(start_time + x, end_time - y, 0%nat)]
    /\ edit_result ext w
         (run ("2" :: "4" :: first_line :: second_line :: rest)%string w)
         rest path_middle
         [(start_time, start_time + x); (start_time + y, end_time)]
         [(start_time, start_time + x, 0%nat);
          (start_time + y, end_time, 0%nat)]
    /\ (exists w', run ("0" :: rest)%string w = (Returned rest, w')
          /\ files w' = files w /\ exports w' = exports w
          /\ clips w' = clips w)
    /\ (forall line stdin,
          line <> "0"%string -> line <> "1"%string -> line <> "2"%string ->
          run (line :: stdin) w = run stdin w)
    /\ (forall where_ stdin,
          where_ <> "1"%string -> where_ <> "2"%string ->
          where_ <> "3"%string ->
          run ("1"%string :: where_ :: stdin) w = run stdin w)
    /\ (forall where_ stdin,
          where_ <> "1"%string -> where_ <> "2"%string ->
          where_ <> "3"%string -> where_ <> "4"%string ->
          run ("2"%string :: where_ :: stdin) w = run stdin w)
    /\ (forall stdin rest' w',
          run stdin w = (Returned rest', w') ->
          edit_effects output_folder clip_index w stdin rest' w').
Proof.
  intros Hx Hy.
  destruct (get_unique_filename_total (files w) output_folder
              (modified_name clip_index) "mp4") as [path Hpath].
  destruct (get_unique_filename_total (files w) output_folder
              (middle_trimmed_name clip_index) "mp4") as [path_middle Hmiddle].
  exists path, path_middle.
  split; [exact Hpath |]. split; [exact Hmiddle |].
  split; [now apply get_unique_filename_fresh in Hpath |].
  split; [now apply get_unique_filename_fresh in Hmiddle |].
  split; [apply edit_result_of_export; [| exact Hpath];
          run_choice; now rewrite Hx |].
  split; [apply edit_result_of_export; [| exact Hpath];
          run_choice; now rewrite Hx |].
  split; [apply edit_result_of_export; [| exact Hpath];
          run_choice; now rewrite Hx, Hy |].
  split; [apply edit_result_of_export; [| exact Hpath];
          run_choice; now rewrite Hx |].
  split; [apply edit_result_of_export; [| exact Hpath];
          run_choice; now rewrite Hx |].
  split; [apply edit_result_of_export; [| exact Hpath];
          run_choice; now rewrite Hx, Hy |].
  split; [apply edit_result_of_middle; [| exact Hmiddle];
          run_choice; now rewrite Hx, Hy |].
  split; [eexists; split; [reflexivity | now cbn] |].
  split; [| split; [| split]].
  - intros line stdin H0 H1 H2. rewrite !modify_clip_run. cbn [modify_loop].
    apply String.eqb_neq in H0, H1, H2. now rewrite H0, H1, H2.
  - intros where_ stdin H1 H2 H3. rewrite !modify_clip_run.
    cbn [modify_loop String.eqb Ascii.eqb Bool.eqb].
    apply String.eqb_neq in H1, H2, H3. rewrite H1, H2, H3.
    now destruct (String.eqb where_ "0").
  - intros where_ stdin H1 H2 H3 H4. rewrite !modify_clip_run.
    cbn [modify_loop String.eqb Ascii.eqb Bool.eqb].
    apply String.eqb_neq in H1, H2, H3, H4. rewrite H1, H2, H3, H4.
    now destruct (String.eqb where_ "0").
  - intros stdin rest' w' Hrun. rewrite modify_clip_run in Hrun.
    apply (modify_loop_effects (length stdin) stdin (Nat.le_refl _)) in Hrun.
    destruct Hrun as [_ Heff]. exact (Heff rest' eq_refl).
Qed.

End Editor.

(** ** The video handle *)

(** The export loop raises nothing but [MediaError] and leaves the
    handle counter alone. *)
Lemma export_clips_outcome (ext : Externals) (output_folder : string)
    (selected : list Clip) :
  forall i w,
  match export_clips ext output_folder i selected w with
  | (Returned _, w') => open_videos w' = open_videos w
  | (Raised e, w') => e = MediaError /\ open_videos w' = open_videos w
  | (OutOfFuel, _) => False
  end.
Proof.
  induction selected as [| [[start end_] rating] rest IH]; intros i w;
    cbn [export_clips].
  - reflexivity.
  - cbv zeta. rewrite bind_run. unfold write_videofile.
    destruct (encodes ext _ _); [| now split].
    match goal with
    | |- context [export_clips _ _ _ _ ?w1] => exact (IH (S i) w1)
    end.
Qed.

(** C9, as stated, fails: when the encoder rejects the first export,
    split_video_into_clips raises and the handle it opened is still
    open. *)
Lemma split_video_into_clips_failed_export_leaks :
  let ext := decimal_externals 100 (fun _ _ => false) in
  let res := split_video_into_clips ext [(0, 40)] "out" 1 5 100
               (empty_world []) in
  fst res = Raised MediaError
  /\ open_videos (empty_world []) = 0%nat
  /\ open_videos (snd res) = 1%nat.
Proof.
  repeat split.
Qed.

(** C9 (amended): split_video_into_clips closes the video handle it
    opens before it returns; when an export fails, the function raises
    [MediaError] and the handle is still open at that point. *)
Theorem split_video_into_clips_handle (ext : Externals)
    (peak_times : list Peak) (output_folder : string) (num_clips : Z)
    (min_duration max_duration : Q) (w : World) :
  match split_video_into_clips ext peak_times output_folder num_clips
          min_duration max_duration w with
  | (Returned _, w') => open_videos w' = open_videos w
  | (Raised e, w') => e = MediaError /\ open_videos w' = S (open_videos w)
  | (OutOfFuel, _) => False
  end.
Proof.
  unfold split_video_into_clips. step_bind. rewrite bind_run.
  pose proof (export_clips_outcome ext output_folder
                (select_top (rate_cuts (segmenter peak_times min_duration
                                          max_duration)) num_clips)
                0 (with_video_open w)) as Hloop.
  destruct (export_clips _ _ _ _ _) as [[[] | e |] w2]; cbn in Hloop.
  - step_bind. cbn [open_videos]. now rewrite Hloop.
  - exact Hloop.
  - exact Hloop.
Qed.

(** ** The scenarios of the editor *)

Lemma modify_clip_add_clamps_witness :
  let ext := decimal_externals 200 (fun _ _ => true) in
  let w := empty_world [(10, 190, 3%nat)] in
  exists path,
    get_unique_filename (files w) "out" (modified_name 1) "mp4" = Some path
    /\ (path ∉ files w)
    /\ edit_result ext w
         (modify_clip ext "out" 1 10 190 ["1"; "1"; "30"]%string w)
         [] path [(0, 190)] [(0, 190, 0%nat)]
    /\ edit_result ext w
         (modify_clip ext "out" 1 10 190 ["1"; "2"; "30"]%string w)
         [] path [(10, 200)] [(10, 200, 0%nat)]
    /\ edit_result ext w
         (modify_clip ext "out" 1 10 190 ["1"; "3"; "30"; "30"]%string w)
         [] path [(0, 200)] [(0, 200, 0%nat)]
    /\ 0 <= 0
    /\ 200 <= 200.
Proof.
  exact (modify_clip_add_clamps (decimal_externals 200 (fun _ _ => true))
           "out" 1 10 190 (empty_world [(10, 190, 3%nat)]) []
           "30" "30" 30 30 eq_refl eq_refl).
Defined.

(** The Trim-Middle scenario: clip [(100,160,3)], offsets 20 and 40. *)
Lemma modify_clip_trim_middle_witness :
  let ext := decimal_externals 1000 (fun _ _ => true) in
  let w := empty_world [(100, 160, 3%nat)] in
  exists path w',
    modify_clip ext "out" 1 100 160 ["2"; "4"; "20"; "40"; "done"]%string w
    = (Returned ["done"%string], w')
    /\ exports w' = [(path, [(100, 120); (140, 160)])]
    /\ clips w' = [(100, 160, 3%nat); (100, 120, 0%nat); (140, 160, 0%nat)]
    /\ interactive_modification 2 ext "out"
         ["1"; "2"; "4"; "20"; "40"; "done"]%string w
       = (Returned [], w').
Proof.
  intros ext w.
  destruct (modify_clip_trim_middle ext "out" 1 100 160 w ["done"%string]
              "20" "40" 20 40 eq_refl eq_refl)
    as (path & _ & _ & Hedit & Hmenu).
  assert (Hline : lower "1" <> "done"%string) by (cbn; discriminate).
  assert (Hone : (1 <= 1)%Z) by lia.
  destruct (Hmenu "1"%string 3%nat 1%nat Hline eq_refl Hone eq_refl eq_refl)
    as (w' & Hrun & Hloop).
  unfold edit_result in Hedit. cbn [encodes ext decimal_externals] in Hedit.
  destruct Hedit as (w'' & Hrun' & _ & Hexports & Hclips).
  rewrite Hrun in Hrun'. injection Hrun' as <-.
  exists path, w'. repeat split; [exact Hrun | exact Hexports | exact Hclips |].
  rewrite Hloop. reflexivity.
Defined.

(** A Trim Back of 5 seconds on clip [(100,160,3)], typed after a
    line that is no choice and a visit to the Add menu left with 0. *)
Lemma modify_clip_grows_clip_list_witness :
  let ext := decimal_externals 1000 (fun _ _ => true) in
  let w := empty_world [(100, 160, 3%nat)] in
  exists path w',
    modify_clip ext "out" 1 100 160
      ["x"; "1"; "0"; "2"; "2"; "5"; "done"]%string w
    = (Returned ["done"%string], w')
    /\ (path ∉ files w)
    /\ files w' = {[path]} ∪ files w
    /\ exports w' = [(path, [(100, 155)])]
    /\ clips w' = [(100, 160, 3%nat); (100, 155, 0%nat)].
Proof.
  intros ext w.
  destruct (modify_clip_grows_clip_list ext "out" 1 100 160 w
              ["done"%string] "5" "5" 5 5 eq_refl eq_refl)
    as (path & _ & _ & _ & Hfresh & _ & _ & _ & _ & _ & Htrim & _ & _ & _
        & Hskip & Hadd & _).
  unfold edit_result in Htrim. cbn [encodes ext decimal_externals] in Htrim.
  destruct Htrim as (w' & Hrun & Hfiles & Hexports & Hclips).
  exists path, w'.
  split; [| now repeat split].
  rewrite Hskip by discriminate. rewrite Hadd by discriminate. exact Hrun.
Defined.

(** * Further properties *)

(** ** The segmenter: what becomes of the intervals *)

Lemma close_segment_peaks (min_duration : Q) (r : Running) :
  sublist (concat (map cut_peaks (close_segment min_duration r))) (absorbed r).
Proof.
  unfold close_segment, absorbed.
  destruct (Qgeb _ _).
  - rewrite map_app, concat_app. cbn [map concat cut_peaks snd].
    now rewrite app_nil_r.
  - apply sublist_inserts_r. reflexivity.
Qed.

Lemma segment_step_peaks (min_duration max_duration : Q) (r : Running)
    (peak : Peak) :
  sublist (absorbed (segment_step min_duration max_duration r peak))
    (absorbed r ++ [peak]).
Proof.
  unfold segment_step. destruct (Qgtb _ _).
  - unfold absorbed at 1. cbn [cuts current_peaks].
    apply sublist_app; [apply close_segment_peaks | reflexivity].
  - unfold absorbed. cbn [cuts current_peaks]. now rewrite app_assoc.
Qed.

Lemma segment_loop_peaks (min_duration max_duration : Q)
    (peak_times : list Peak) :
  forall r seen, sublist (absorbed r) seen ->
  sublist (absorbed (segment_loop min_duration max_duration peak_times r))
    (seen ++ peak_times).
Proof.
  unfold segment_loop.
  induction peak_times as [| peak rest IH]; intros r seen Hseen;
    cbn [fold_left].
  - now rewrite app_nil_r.
  - replace (seen ++ peak :: rest) with ((seen ++ [peak]) ++ rest)
      by now rewrite <- app_assoc.
    apply IH. etransitivity; [apply segment_step_peaks |].
    apply sublist_app; [exact Hseen | reflexivity].
Qed.

Lemma rate_cuts_sum (cs : list Cut) :
  sum_list (map clip_rating (rate_cuts cs))
  = length (concat (map cut_peaks cs)).
Proof.
  induction cs as [| c cs IH]; [reflexivity |].
  cbn [rate_cuts map sum_list_with concat clip_rating snd].
  unfold sum_list in *. cbn [sum_list_with].
  rewrite length_app. unfold rate_clip. f_equal. exact IH.
Qed.

(** X1: the intervals held by the cuts of the segmenter, read cut after
    cut, are intervals of the input in their input order, none of them
    twice; so the ratings of the candidates add up to at most the number
    of input intervals. *)
Theorem segmenter_keeps_intervals_once (peak_times : list Peak)
    (min_duration max_duration : Q) :
  sublist
    (concat (map cut_peaks (segmenter peak_times min_duration max_duration)))
    peak_times
  /\ (sum_list (map clip_rating
        (rate_cuts (segmenter peak_times min_duration max_duration)))
      <= length peak_times)%nat.
Proof.
  assert (Hsub : sublist
    (concat (map cut_peaks (segmenter peak_times min_duration max_duration)))
    peak_times).
  { unfold segmenter. etransitivity; [apply close_segment_peaks |].
    apply (segment_loop_peaks min_duration max_duration peak_times
             running_init []).
    reflexivity. }
  split; [exact Hsub |].
  rewrite rate_cuts_sum. now apply sublist_length.
Qed.

(** ** The segmenter: intervals that all fit under the cap *)

Lemma last_cons_default (p : Peak) (l : list Peak) (d d' : Peak) :
  List.last (p :: l) d = List.last (p :: l) d'.
Proof.
  revert p. induction l as [| q l IH]; intros p; [reflexivity |].
  apply (IH q).
Qed.

Lemma segment_loop_absorbs (min_duration max_duration : Q)
    (peak_times : list Peak) :
  forall r,
  Forall (fun p => snd p - current_start r <= max_duration) peak_times ->
  segment_loop min_duration max_duration peak_times r
  = {| cuts := cuts r;
       current_start := current_start r;
       current_end :=
         snd (List.last peak_times (current_start r, current_end r));
       current_peaks := current_peaks r ++ peak_times |}.
Proof.
  unfold segment_loop.
  induction peak_times as [| p rest IH]; intros r Hfit; cbn [fold_left].
  - cbn [List.last snd]. rewrite app_nil_r. now destruct r.
  - inversion Hfit as [| ? ? Hp Hrest]; subst.
    unfold segment_step at 2.
    replace (Qgtb (snd p - current_start r) max_duration) with false
      by (symmetry; now apply Qgtb_false).
    rewrite IH by exact Hrest.
    cbn [cuts current_start current_end current_peaks].
    rewrite <- app_assoc. f_equal.
    change (List.last (p :: rest) (current_start r, current_end r))
      with (match rest with
            | [] => p
            | _ :: _ => List.last rest (current_start r, current_end r)
            end).
    destruct rest as [| q rest]; [reflexivity |].
    f_equal. apply last_cons_default.
Qed.

(** X2: when every interval ends within [max_duration] of time 0, the
    segmenter never cuts: it emits one clip that runs from 0 (not from
    the start of the first interval) to the end of the last interval
    and holds them all, provided that end reaches [min_duration], and
    it emits nothing otherwise. *)
Theorem segmenter_single_clip_from_zero (peak_times : list Peak)
    (min_duration max_duration : Q) :
  Forall (fun p => snd p <= max_duration) peak_times ->
  let last_end := snd (List.last peak_times (0, 0)) in
  (min_duration <= last_end ->
   segmenter peak_times min_duration max_duration
   = [(0, last_end, peak_times)])
  /\ (last_end < min_duration ->
      segmenter peak_times min_duration max_duration = []).
Proof.
  intros Hfit last_end. unfold segmenter.
  rewrite segment_loop_absorbs.
  2:{ eapply Forall_impl; [exact Hfit |]. intros p Hp.
      change (snd p - 0 <= max_duration). cbv beta in Hp. lra. }
  unfold close_segment. cbn [cuts current_start current_end current_peaks
                             running_init app].
  fold last_end. split; intros Hmin.
  - replace (Qgeb (last_end - 0) min_duration) with true; [reflexivity |].
    symmetry. apply Qgeb_true. lra.
  - replace (Qgeb (last_end - 0) min_duration) with false; [reflexivity |].
    symmetry. apply Qgeb_false. lra.
Qed.

Lemma segmenter_single_clip_from_zero_witness :
  let peak_times : list Peak := [(50, 60); (65, 80)] in
  (30 <= 80 ->
   segmenter peak_times 30 90 = [(0, 80, peak_times)])
  /\ (80 < 30 -> segmenter peak_times 30 90 = []).
Proof.
  apply (segmenter_single_clip_from_zero [(50, 60); (65, 80)] 30 90).
  repeat constructor; cbn; lra.
Defined.

(** ** The segmenter: intervals in chronological order *)

Lemma StronglySorted_snoc {A : Type} (R : A -> A -> Prop) (l : list A) (y : A) :
  StronglySorted R l -> Forall (fun x => R x y) l ->
  StronglySorted R (l ++ [y]).
Proof.
  induction 1 as [| x l Hl IH Hx]; intros Hy; cbn.
  - repeat constructor.
  - inversion Hy as [| ? ? Hxy Hly]; subst.
    constructor; [now apply IH |].
    apply Forall_app. split; [exact Hx | now constructor].
Qed.

Lemma chronological_from_earlier (t t' : Q) (l : list Peak) :
  t' <= t -> chronological_from t l -> chronological_from t' l.
Proof.
  destruct l as [| p l]; [easy |].
  intros Ht (Hp & Hwf & Hrest). repeat split; [lra | exact Hwf | exact Hrest].
Qed.

Lemma close_segment_ordered (min_duration : Q) (r : Running) :
  running_ordered r ->
  StronglySorted cut_before (close_segment min_duration r)
  /\ Forall cut_proper (close_segment min_duration r)
  /\ Forall (fun c => cut_end c <= current_end r)
       (close_segment min_duration r).
Proof.
  intros (Hsorted & Hproper & Hover & Hzero & Hle).
  assert (Hover' : Forall (fun c => cut_end c <= current_end r) (cuts r)).
  { eapply Forall_impl; [exact Hover |]. intros c Hc. cbn in Hc. lra. }
  unfold close_segment. destruct (Qgeb _ _); [| now repeat split].
  split; [| split].
  - apply StronglySorted_snoc; [exact Hsorted | exact Hover].
  - apply Forall_app. split; [exact Hproper |].
    constructor; [| constructor]. now split.
  - apply Forall_app. split; [exact Hover' |].
    constructor; [| constructor]. apply Qle_refl.
Qed.

Lemma segment_step_ordered (min_duration max_duration : Q) (r : Running)
    (peak : Peak) :
  running_ordered r -> current_end r <= fst peak -> fst peak <= snd peak ->
  running_ordered (segment_step min_duration max_duration r peak)
  /\ current_end (segment_step min_duration max_duration r peak) = snd peak.
Proof.
  intros Hr Hafter Hwf.
  pose proof (close_segment_ordered min_duration r Hr)
    as (Hsorted' & Hproper' & Hover').
  destruct Hr as (Hsorted & Hproper & Hover & Hzero & Hle).
  unfold segment_step. destruct (Qgtb _ _).
  - split; [| reflexivity].
    unfold running_ordered.
    cbn [cuts current_start current_end current_peaks].
    repeat split; [exact Hsorted' | exact Hproper' | | lra | exact Hwf].
    eapply Forall_impl; [exact Hover' |]. intros c Hc. cbn in Hc. lra.
  - split; [| reflexivity].
    unfold running_ordered.
    cbn [cuts current_start current_end current_peaks].
    repeat split; [exact Hsorted | exact Hproper | exact Hover
                  | exact Hzero | lra].
Qed.

Lemma segment_loop_ordered (min_duration max_duration : Q)
    (peak_times : list Peak) :
  forall r, running_ordered r ->
  chronological_from (current_end r) peak_times ->
  running_ordered (segment_loop min_duration max_duration peak_times r).
Proof.
  unfold segment_loop.
  induction peak_times as [| peak rest IH]; intros r Hr Hchrono;
    cbn [fold_left]; [exact Hr |].
  destruct Hchrono as (Hafter & Hwf & Hrest).
  destruct (segment_step_ordered min_duration max_duration r peak
              Hr Hafter Hwf) as [Hr' Hend].
  apply IH; [exact Hr' | now rewrite Hend].
Qed.

Lemma segmenter_ordered (peak_times : list Peak)
    (min_duration max_duration : Q) :
  chronological_from 0 peak_times ->
  StronglySorted cut_before (segmenter peak_times min_duration max_duration)
  /\ Forall cut_proper (segmenter peak_times min_duration max_duration).
Proof.
  intros Hchrono. unfold segmenter.
  destruct (close_segment_ordered min_duration
              (segment_loop min_duration max_duration peak_times running_init))
    as (Hsorted & Hproper & _); [| now split].
  apply segment_loop_ordered; [| exact Hchrono].
  unfold running_ordered. cbn.
  repeat split; try constructor; apply Qle_refl.
Qed.

(** X3: for intervals in chronological order (none begins before 0 or
    before the one in front of it ends, none ends before it begins) the
    cuts of the segmenter come out in chronological order too: each is
    over when the next begins, so no two overlap, and each begins at 0
    or later and does not end before it begins. *)
Theorem segmenter_cuts_do_not_overlap (peak_times : list Peak)
    (min_duration max_duration : Q) :
  chronological_from 0 peak_times ->
  StronglySorted cut_before (segmenter peak_times min_duration max_duration)
  /\ Forall cut_proper (segmenter peak_times min_duration max_duration).
Proof. apply segmenter_ordered. Qed.

Lemma segmenter_cuts_do_not_overlap_witness :
  let peak_times : list Peak := [(0, 10); (15, 95); (100, 140)] in
  StronglySorted cut_before (segmenter peak_times 5 90)
  /\ Forall cut_proper (segmenter peak_times 5 90).
Proof.
  apply (segmenter_cuts_do_not_overlap [(0, 10); (15, 95); (100, 140)] 5 90).
  cbn. repeat split; lra.
Defined.

(** ** detect_audio_peaks *)

Lemma seconds_le (a b : Z) :
  (a <= b)%Z -> inject_Z a / 1000 <= inject_Z b / 1000.
Proof.
  intros Hab. rewrite Zle_Qle in Hab.
  apply Qmult_le_compat_r; [exact Hab | easy].
Qed.

Lemma detect_audio_peaks_chronological (t : Z) (periods : list (Z * Z)) :
  periods_from t periods ->
  chronological_from (inject_Z t / 1000) (detect_audio_peaks periods).
Proof.
  revert t. induction periods as [| p periods IH]; intros t; [easy |].
  intros (Hafter & Hwf & Hrest). cbn.
  repeat split; [now apply seconds_le | now apply seconds_le | now apply IH].
Qed.

(** X4: detect_audio_peaks keeps the order of what pydub reports, so
    for millisecond periods in chronological order from 0 the
    candidates cut from the resulting peaks are in chronological order
    and do not overlap. *)
Theorem detect_audio_peaks_cuts_do_not_overlap (periods : list (Z * Z))
    (min_duration max_duration : Q) :
  periods_from 0 periods ->
  chronological_from 0 (detect_audio_peaks periods)
  /\ StronglySorted cut_before
       (segmenter (detect_audio_peaks periods) min_duration max_duration)
  /\ Forall cut_proper
       (segmenter (detect_audio_peaks periods) min_duration max_duration).
Proof.
  intros Hperiods.
  assert (Hchrono : chronological_from 0 (detect_audio_peaks periods)).
  { apply (chronological_from_earlier (inject_Z 0 / 1000)); [easy |].
    now apply detect_audio_peaks_chronological. }
  split; [exact Hchrono |]. now apply segmenter_ordered.
Qed.

Lemma detect_audio_peaks_cuts_do_not_overlap_witness :
  let periods : list (Z * Z) := [(0, 10500); (15000, 95250)]%Z in
  chronological_from 0 (detect_audio_peaks periods)
  /\ StronglySorted cut_before (segmenter (detect_audio_peaks periods) 5 90)
  /\ Forall cut_proper (segmenter (detect_audio_peaks periods) 5 90).
Proof.
  apply (detect_audio_peaks_cuts_do_not_overlap
           [(0, 10500); (15000, 95250)]%Z 5 90).
  cbn. lia.
Defined.

(** ** split_video_into_clips: the list it returns *)

Lemma StronglySorted_firstn {A : Type} (R : A -> A -> Prop) (n : nat)
    (l : list A) :
  StronglySorted R l -> StronglySorted R (firstn n l).
Proof.
  intros Hl. revert n. induction Hl as [| x l Hl IH Hx]; intros [| n]; cbn;
    try constructor.
  - apply IH.
  - rewrite Forall_forall in Hx. apply Forall_forall. intros y Hy.
    apply Hx. apply list_elem_of_In. apply list_elem_of_In in Hy.
    rewrite <- (firstn_skipn n l). apply in_or_app. now left.
Qed.

Lemma select_top_sorted (rated_clips : list Clip) (num_clips : Z) :
  StronglySorted rating_ge (select_top rated_clips num_clips).
Proof.
  unfold select_top, slice_to.
  destruct (0 <=? num_clips)%Z;
    apply StronglySorted_firstn, sort_by_rating_sorted.
Qed.

Lemma select_top_length (rated_clips : list Clip) (num_clips : Z) :
  length (select_top rated_clips num_clips)
  = if (0 <=? num_clips)%Z
    then Nat.min (Z.to_nat num_clips) (length rated_clips)
    else (length rated_clips - Z.to_nat (- num_clips))%nat.
Proof.
  assert (Hlen : length (sort_by_rating rated_clips) = length rated_clips).
  { symmetry. apply Permutation_length, sort_by_rating_perm. }
  unfold select_top, slice_to.
  destruct (0 <=? num_clips)%Z; rewrite length_take, Hlen; lia.
Qed.

(** X5: the list returned by split_video_into_clips is sorted by
    rating, best first; each of its clips lasts at least
    [min_duration]; it holds [num_clips] clips or, if there are fewer
    candidates, all of them, and for a negative [num_clips] all
    candidates but the [-num_clips] of lowest rank. *)
Theorem split_video_into_clips_returns_best (ext : Externals)
    (peak_times : list Peak) (output_folder : string) (num_clips : Z)
    (min_duration max_duration : Q) (w w' : World) (selected : list Clip) :
  split_video_into_clips ext peak_times output_folder num_clips
    min_duration max_duration w = (Returned selected, w') ->
  let candidates := length (segmenter peak_times min_duration max_duration) in
  StronglySorted rating_ge selected
  /\ Forall (fun c => min_duration <= clip_end c - clip_start c) selected
  /\ length selected
     = if (0 <=? num_clips)%Z
       then Nat.min (Z.to_nat num_clips) candidates
       else (candidates - Z.to_nat (- num_clips))%nat.
Proof.
  intros Hrun candidates.
  apply split_video_into_clips_returned in Hrun. subst selected.
  split; [apply select_top_sorted |]. split.
  - apply Forall_forall. intros c Hc.
    apply list_elem_of_In, select_top_incl in Hc.
    unfold rate_cuts in Hc. apply in_map_iff in Hc.
    destruct Hc as (cut & <- & Hcut).
    pose proof (segmenter_ok peak_times min_duration max_duration) as Hall.
    rewrite Forall_forall in Hall.
    apply list_elem_of_In, Hall in Hcut. now destruct Hcut as [Hmin _].
  - rewrite select_top_length. unfold rate_cuts. now rewrite length_map.
Qed.

Lemma split_video_into_clips_returns_best_witness :
  let selected : list Clip := [(0, 10, 1%nat); (15, 95, 1%nat)] in
  StronglySorted rating_ge selected
  /\ Forall (fun c => 5 <= clip_end c - clip_start c) selected
  /\ length selected = 2%nat.
Proof.
  pose (ext := decimal_externals 200 (fun _ _ => true)).
  pose (res := split_video_into_clips ext [(0, 10); (15, 95); (100, 140)]
                 "out" (-1) 5 90 (empty_world [])).
  apply (split_video_into_clips_returns_best ext
           [(0, 10); (15, 95); (100, 140)] "out" (-1) 5 90
           (empty_world []) (snd res)).
  vm_compute. reflexivity.
Defined.

(** ** split_video_into_clips: the files it writes *)

Lemma union_list_nil (X : gset string) : list_to_set [] ∪ X = X.
Proof. apply (left_id_L ∅ (∪)). Qed.

Lemma union_list_cons (p : string) (l : list string) (X : gset string) :
  list_to_set (p :: l) ∪ X = list_to_set l ∪ ({[p]} ∪ X).
Proof.
  change (({[p]} ∪ list_to_set l) ∪ X = list_to_set l ∪ ({[p]} ∪ X)).
  now rewrite (comm_L (∪) {[p]}), <- (assoc_L (∪)).
Qed.

(** The export loop stops at the first export that fails; the exports
    made before it stay. [k] is the number of exports made. *)
Lemma export_clips_progress (ext : Externals) (output_folder : string)
    (selected : list Clip) :
  forall i w o w',
  export_clips ext output_folder i selected w = (o, w') ->
  exists k,
    exports w' = exports w ++ take k (planned_exports output_folder i selected)
    /\ files w' = list_to_set
                    (map fst (take k (planned_exports output_folder i selected)))
                  ∪ files w
    /\ clips w' = clips w
    /\ match o with
       | Returned _ => k = length selected
       | Raised e =>
           e = MediaError
           /\ exists path ranges,
                planned_exports output_folder i selected !! k
                = Some (path, ranges)
                /\ encodes ext path ranges = false
       | OutOfFuel => False
       end.
Proof.
  induction selected as [| c rest IH]; intros i w o w' Hrun.
  - injection Hrun as <- <-. exists 0%nat. cbn [take planned_exports map].
    rewrite app_nil_r. repeat split. symmetry. apply union_list_nil.
  - destruct c as [[start end_] rating]. cbn [export_clips] in Hrun.
    cbv zeta in Hrun. rewrite bind_run in Hrun.
    unfold write_videofile in Hrun.
    change (path_join output_folder
              ("clip_" +:+ str_of_nat (i + 1) +:+ "_rating_"
                 +:+ str_of_nat rating +:+ ".mp4"))
      with (clip_file output_folder i (start, end_, rating)) in Hrun.
    destruct (encodes ext _ _) eqn:Henc.
    + apply IH in Hrun. destruct Hrun as (k & Hex & Hfiles & Hclips & Ho).
      cbn [exports files clips] in Hex, Hfiles, Hclips.
      exists (S k). cbn [planned_exports take map fst list_to_set].
      cbn [clip_start clip_end fst snd].
      split; [now rewrite Hex, <- app_assoc |].
      split; [rewrite Hfiles; symmetry; apply union_list_cons |].
      split; [exact Hclips |].
      destruct o as [[] | e |]; [now subst k | exact Ho | exact Ho].
    + injection Hrun as <- <-. exists 0%nat. cbn [take map].
      rewrite app_nil_r. split; [reflexivity |].
      split; [symmetry; apply union_list_nil |]. split; [reflexivity |].
      split; [reflexivity |].
      exists (clip_file output_folder i (start, end_, rating)), [(start, end_)].
      split; [reflexivity | exact Henc].
Qed.

Lemma split_video_into_clips_progress (ext : Externals)
    (peak_times : list Peak) (output_folder : string) (num_clips : Z)
    (min_duration max_duration : Q) (w : World)
    (o : Outcome (list Clip)) (w' : World) :
  split_video_into_clips ext peak_times output_folder num_clips
    min_duration max_duration w = (o, w') ->
  let selected :=
    select_top (rate_cuts (segmenter peak_times min_duration max_duration))
      num_clips in
  let planned := planned_exports output_folder 0 selected in
  exists k,
    exports w' = exports w ++ take k planned
    /\ files w' = list_to_set (map fst (take k planned)) ∪ files w
    /\ clips w' = clips w
    /\ match o with
       | Returned l => l = selected /\ k = length selected
       | Raised e =>
           e = MediaError
           /\ exists path ranges,
                planned !! k = Some (path, ranges)
                /\ encodes ext path ranges = false
       | OutOfFuel => False
       end.
Proof.
  intros Hrun selected planned. unfold split_video_into_clips in Hrun.
  fold selected in Hrun. rewrite bind_run in Hrun. cbn [open_video] in Hrun.
  rewrite bind_run in Hrun.
  destruct (export_clips ext output_folder 0 selected (with_video_open w))
    as [o1 w1] eqn:Hloop.
  apply export_clips_progress in Hloop.
  destruct Hloop as (k & Hex & Hfiles & Hclips & Ho).
  cbn [exports files clips with_video_open] in Hex, Hfiles, Hclips.
  exists k. destruct o1 as [[] | e |].
  - rewrite bind_run in Hrun. cbn [close_video ret] in Hrun.
    injection Hrun as <- <-. cbn [exports files clips]. now repeat split.
  - injection Hrun as <- <-. now repeat split.
  - contradiction.
Qed.

(** X6: when split_video_into_clips returns, it has written one file
    per returned clip, in the order of the returned list: the file of
    the clip at index [i] is named [clip_(i+1)_rating_(rating).mp4] in
    [output_folder] and holds the range of that clip; nothing else was
    written and the editor's clip list is untouched. *)
Theorem split_video_into_clips_writes_selection (ext : Externals)
    (peak_times : list Peak) (output_folder : string) (num_clips : Z)
    (min_duration max_duration : Q) (w w' : World) (selected : list Clip) :
  split_video_into_clips ext peak_times output_folder num_clips
    min_duration max_duration w = (Returned selected, w') ->
  exports w' = exports w ++ planned_exports output_folder 0 selected
  /\ files w'
     = list_to_set (map fst (planned_exports output_folder 0 selected))
       ∪ files w
  /\ clips w' = clips w
  /\ length (planned_exports output_folder 0 selected) = length selected.
Proof.
  intros Hrun. apply split_video_into_clips_progress in Hrun.
  destruct Hrun as (k & Hex & Hfiles & Hclips & -> & ->).
  assert (Hlen : forall i l,
            length (planned_exports output_folder i l) = length l).
  { intros i l. revert i. induction l as [| c l IH]; intros i; cbn;
      [reflexivity | now rewrite IH]. }
  rewrite <- (Hlen 0%nat) in Hex, Hfiles. rewrite firstn_all in Hex, Hfiles.
  repeat split; [exact Hex | exact Hfiles | exact Hclips | apply Hlen].
Qed.

Lemma split_video_into_clips_writes_selection_witness :
  let ext := decimal_externals 200 (fun _ _ => true) in
  let res := split_video_into_clips ext [(0, 10); (15, 95)] "out" 5 5 90
               (empty_world []) in
  let selected : list Clip := [(0, 10, 1%nat); (15, 95, 1%nat)] in
  exports (snd res) = [] ++ planned_exports "out" 0 selected
  /\ files (snd res)
     = list_to_set (map fst (planned_exports "out" 0 selected)) ∪ ∅
  /\ clips (snd res) = []
  /\ length (planned_exports "out" 0 selected) = 2%nat.
Proof.
  intros ext res selected.
  apply (split_video_into_clips_writes_selection ext [(0, 10); (15, 95)]
           "out" 5 5 90 (empty_world []) (snd res) selected).
  vm_compute. reflexivity.
Defined.

(** X7: when an export fails, split_video_into_clips raises
    [MediaError]; the exports made before the failing one stay on disk
    and in the log, in rank order, and none is made after it. *)
Theorem split_video_into_clips_keeps_finished_exports (ext : Externals)
    (peak_times : list Peak) (output_folder : string) (num_clips : Z)
    (min_duration max_duration : Q) (w w' : World) (e : Exn) :
  split_video_into_clips ext peak_times output_folder num_clips
    min_duration max_duration w = (Raised e, w') ->
  let planned :=
    planned_exports output_folder 0
      (select_top (rate_cuts (segmenter peak_times min_duration max_duration))
         num_clips) in
  e = MediaError
  /\ exists k path ranges,
       planned !! k = Some (path, ranges)
       /\ encodes ext path ranges = false
       /\ exports w' = exports w ++ take k planned
       /\ files w' = list_to_set (map fst (take k planned)) ∪ files w.
Proof.
  intros Hrun planned. apply split_video_into_clips_progress in Hrun.
  destruct Hrun as (k & Hex & Hfiles & _ & -> & path & ranges & Hk & Henc).
  split; [reflexivity |]. now exists k, path, ranges.
Qed.

Lemma split_video_into_clips_keeps_finished_exports_witness :
  let ext := decimal_externals 200
               (fun path _ => String.eqb path "out/clip_1_rating_1.mp4") in
  let res := split_video_into_clips ext [(0, 10); (15, 95)] "out" 5 5 90
               (empty_world []) in
  let planned := planned_exports "out" 0 [(0, 10, 1%nat); (15, 95, 1%nat)] in
  MediaError = MediaError
  /\ exists k path ranges,
       planned !! k = Some (path, ranges)
       /\ encodes ext path ranges = false
       /\ exports (snd res) = [] ++ take k planned
       /\ files (snd res) = list_to_set (map fst (take k planned)) ∪ ∅.
Proof.
  intros ext res planned.
  apply (split_video_into_clips_keeps_finished_exports ext
           [(0, 10); (15, 95)] "out" 5 5 90 (empty_world []) (snd res)
           MediaError).
  vm_compute. reflexivity.
Defined.

(** ** split_video_into_clips: the names of its files *)

Lemma string_of_uint_digits (d : Decimal.uint) :
  ~ occurs "_" (NilEmpty.string_of_uint d).
Proof.
  induction d; cbn [NilEmpty.string_of_uint occurs];
    [tauto | intros [Hc | Hrest]; [discriminate Hc | tauto] ..].
Qed.

Lemma str_of_nat_digits (n : nat) : ~ occurs "_" (str_of_nat n).
Proof. apply string_of_uint_digits. Qed.

(** Two strings cut at the first occurrence of [c] have the same part
    in front of it. *)
Lemma string_app_inj_at (c : ascii) (a b x y : string) :
  ~ occurs c a -> ~ occurs c b ->
  a +:+ String c x = b +:+ String c y -> a = b.
Proof.
  revert b. induction a as [| u a IH]; intros [| v b] Ha Hb Heq.
  - reflexivity.
  - change (String c x = String v (b +:+ String c y)) in Heq.
    injection Heq as -> _. cbn in Hb. tauto.
  - change (String u (a +:+ String c x) = String c y) in Heq.
    injection Heq as -> _. cbn in Ha. tauto.
  - change (String u (a +:+ String c x) = String v (b +:+ String c y)) in Heq.
    injection Heq as -> Heq. f_equal.
    cbn in Ha, Hb. apply (IH b); tauto.
Qed.

Lemma clip_file_inj (output_folder : string) (i j : nat) (c d : Clip) :
  clip_file output_folder i c = clip_file output_folder j d -> i = j.
Proof.
  unfold clip_file.
  destruct (path_join_prefix output_folder "clip") as [pre Hpre].
  change ("clip_" +:+ str_of_nat (i + 1) +:+ "_rating_"
            +:+ str_of_nat (clip_rating c) +:+ ".mp4")
    with ("clip" +:+ "_" +:+ str_of_nat (i + 1) +:+ "_rating_"
            +:+ str_of_nat (clip_rating c) +:+ ".mp4").
  change ("clip_" +:+ str_of_nat (j + 1) +:+ "_rating_"
            +:+ str_of_nat (clip_rating d) +:+ ".mp4")
    with ("clip" +:+ "_" +:+ str_of_nat (j + 1) +:+ "_rating_"
            +:+ str_of_nat (clip_rating d) +:+ ".mp4").
  rewrite !Hpre. intros Heq.
  do 3 apply String.app_inj in Heq.
  apply string_app_inj_at in Heq; try apply str_of_nat_digits.
  apply str_of_nat_inj in Heq. lia.
Qed.

Lemma planned_exports_indices (output_folder : string) (selected : list Clip) :
  forall i path,
  In path (map fst (planned_exports output_folder i selected)) ->
  exists j c, (i <= j)%nat /\ path = clip_file output_folder j c.
Proof.
  induction selected as [| c rest IH]; intros i path; cbn; [tauto |].
  intros [<- | Hin].
  - now exists i, c.
  - destruct (IH _ _ Hin) as (j & d & Hj & ->). exists j, d. split; [lia | easy].
Qed.

Lemma planned_exports_NoDup (output_folder : string) (selected : list Clip) :
  forall i, NoDup (map fst (planned_exports output_folder i selected)).
Proof.
  induction selected as [| c rest IH]; intros i; cbn; constructor.
  - intros Hin. apply list_elem_of_In, planned_exports_indices in Hin.
    destruct Hin as (j & d & Hj & Heq). apply clip_file_inj in Heq. lia.
  - apply IH.
Qed.

(** X8: the files written by one call of split_video_into_clips have
    pairwise distinct names, whatever the ratings: no clip of a run
    overwrites another clip of the same run. *)
Theorem split_video_into_clips_distinct_files (ext : Externals)
    (peak_times : list Peak) (output_folder : string) (num_clips : Z)
    (min_duration max_duration : Q) (w : World)
    (o : Outcome (list Clip)) (w' : World) :
  split_video_into_clips ext peak_times output_folder num_clips
    min_duration max_duration w = (o, w') ->
  exists written,
    exports w' = exports w ++ written /\ NoDup (map fst written).
Proof.
  intros Hrun. apply split_video_into_clips_progress in Hrun.
  destruct Hrun as (k & Hex & _).
  eexists. split; [exact Hex |].
  set (planned := planned_exports _ _ _).
  assert (Hall : NoDup (map fst planned)) by apply planned_exports_NoDup.
  rewrite <- (take_drop k planned), map_app in Hall.
  now apply NoDup_app in Hall as (Htake & _).
Qed.

Lemma split_video_into_clips_distinct_files_witness :
  let ext := decimal_externals 200 (fun _ _ => true) in
  let res := split_video_into_clips ext [(0, 10); (15, 95)] "out" 5 5 90
               (empty_world []) in
  exists written,
    exports (snd res) = [] ++ written /\ NoDup (map fst written).
Proof.
  intros ext res.
  apply (split_video_into_clips_distinct_files ext [(0, 10); (15, 95)]
           "out" 5 5 90 (empty_world []) (fst res) (snd res)).
  unfold res. now destruct (split_video_into_clips _ _ _ _ _ _ _).
Defined.

(** X9: when the segmenter finds no candidate, or when [num_clips] is
    0, split_video_into_clips returns the empty list and leaves the
    world as it found it: no file is written and the handle it opened
    is closed again. *)
Theorem split_video_into_clips_nothing_to_do (ext : Externals)
    (peak_times : list Peak) (output_folder : string) (num_clips : Z)
    (min_duration max_duration : Q) (w : World) :
  segmenter peak_times min_duration max_duration = [] \/ num_clips = 0%Z ->
  split_video_into_clips ext peak_times output_folder num_clips
    min_duration max_duration w = (Returned [], w).
Proof.
  intros Hnone. unfold split_video_into_clips.
  assert (Hsel : select_top
            (rate_cuts (segmenter peak_times min_duration max_duration))
            num_clips = []).
  { destruct Hnone as [-> | ->]; [| reflexivity].
    unfold select_top, slice_to. cbn [rate_cuts map sort_by_rating fold_right].
    destruct (0 <=? num_clips)%Z; apply firstn_nil. }
  rewrite Hsel. now destruct w.
Qed.

Lemma split_video_into_clips_nothing_to_do_witness :
  split_video_into_clips (decimal_externals 200 (fun _ _ => true))
    [(0, 10)] "out" 3 30 90 (empty_world [])
  = (Returned [], empty_world []).
Proof.
  apply (split_video_into_clips_nothing_to_do
           (decimal_externals 200 (fun _ _ => true))
           [(0, 10)] "out" 3 30 90 (empty_world [])).
  left. reflexivity.
Defined.

(** ** get_unique_filename: which files matter *)

Section UniqueFilenameMore.

Variables output_folder base_name extension : string.

Local Abbreviation cand := (candidate_path output_folder base_name extension).
Local Abbreviation unique :=
  (fun fs => get_unique_filename fs output_folder base_name extension).

(** The result is the candidate of the least counter that is free. *)
Lemma get_unique_filename_first_free (fs : gset string) :
  exists k, (1 <= k)%nat /\ unique fs = Some (cand k) /\ (cand k ∉ fs)
            /\ forall j, (1 <= j < k)%nat -> cand j ∈ fs.
Proof.
  destruct (get_unique_filename_total fs output_folder base_name extension)
    as [p Hp].
  pose proof Hp as Hrun. unfold get_unique_filename in Hrun.
  apply get_unique_filename_loop_some in Hrun.
  destruct Hrun as (k & Hk & -> & Hfree & Hbusy).
  exists k. repeat split; assumption.
Qed.

Lemma get_unique_filename_agree (fs fs' : gset string) :
  (forall k, (1 <= k)%nat -> cand k ∈ fs <-> cand k ∈ fs') ->
  unique fs = unique fs'.
Proof.
  intros Hagree.
  destruct (get_unique_filename_first_free fs)
    as (k & Hk & -> & Hfree & Hbusy).
  destruct (get_unique_filename_first_free fs')
    as (k' & Hk' & -> & Hfree' & Hbusy').
  destruct (Nat.lt_trichotomy k k') as [Hlt | [-> | Hgt]]; [| reflexivity |].
  - exfalso. apply Hfree. apply Hagree; [exact Hk |]. apply Hbusy'. lia.
  - exfalso. apply Hfree'. apply Hagree; [exact Hk' |]. apply Hbusy. lia.
Qed.

(** X10: the name chosen by get_unique_filename depends on the
    candidate names alone: two folder contents that hold the same
    files among [base_name_1.extension], [base_name_2.extension], ...
    give the same name, and when none of these exists the name is
    [base_name_1.extension]. *)
Theorem get_unique_filename_ignores_other_files (fs fs' : gset string) :
  (forall k, (1 <= k)%nat ->
     candidate_path output_folder base_name extension k ∈ fs
     <-> candidate_path output_folder base_name extension k ∈ fs') ->
  get_unique_filename fs output_folder base_name extension
  = get_unique_filename fs' output_folder base_name extension
  /\ ((forall k, (1 <= k)%nat ->
         candidate_path output_folder base_name extension k ∉ fs) ->
      get_unique_filename fs output_folder base_name extension
      = Some (candidate_path output_folder base_name extension 1)).
Proof.
  intros Hagree. split; [now apply get_unique_filename_agree |].
  intros Hnone.
  destruct (get_unique_filename_first_free fs)
    as (k & Hk & -> & Hfree & Hbusy).
  destruct (decide (k = 1%nat)) as [-> | Hne]; [reflexivity |].
  exfalso. apply (Hnone 1%nat); [lia |]. apply Hbusy. lia.
Qed.

(** X11: once the file named by get_unique_filename exists, the next
    call names a file with a strictly larger counter: successive
    exports of the same clip get increasing numbers and never reuse a
    name. *)
Theorem get_unique_filename_next_is_later (fs : gset string) (p : string) :
  get_unique_filename fs output_folder base_name extension = Some p ->
  exists k k',
    (1 <= k < k')%nat
    /\ p = candidate_path output_folder base_name extension k
    /\ get_unique_filename ({[p]} ∪ fs) output_folder base_name extension
       = Some (candidate_path output_folder base_name extension k').
Proof.
  intros Hp.
  destruct (get_unique_filename_first_free fs)
    as (k & Hk & Hrun & Hfree & Hbusy).
  rewrite Hp in Hrun. injection Hrun as ->.
  destruct (get_unique_filename_first_free ({[cand k]} ∪ fs))
    as (k' & Hk' & Hrun' & Hfree' & _).
  exists k, k'. split; [| now split].
  split; [exact Hk |].
  destruct (Nat.lt_trichotomy k' k) as [Hlt | [-> | Hgt]]; [| | exact Hgt].
  - exfalso. apply Hfree'. apply elem_of_union_r. apply Hbusy. lia.
  - exfalso. apply Hfree'. apply elem_of_union_l. now apply elem_of_singleton.
Qed.

End UniqueFilenameMore.

Lemma get_unique_filename_ignores_other_files_witness :
  get_unique_filename {["out/notes.txt"%string]} "out" "clip_1_modified" "mp4"
  = get_unique_filename ∅ "out" "clip_1_modified" "mp4"
  /\ ((forall k, (1 <= k)%nat ->
         candidate_path "out" "clip_1_modified" "mp4" k
         ∉ ({["out/notes.txt"%string]} : gset string)) ->
      get_unique_filename {["out/notes.txt"%string]} "out" "clip_1_modified"
        "mp4"
      = Some (candidate_path "out" "clip_1_modified" "mp4" 1)).
Proof.
  apply (get_unique_filename_ignores_other_files "out" "clip_1_modified" "mp4"
           {["out/notes.txt"%string]} ∅).
  intros k Hk. split; intros Hin.
  - apply elem_of_singleton in Hin.
    apply (f_equal String.length) in Hin. exfalso.
    destruct (path_join_prefix "out" "clip_1_modified") as [pre Hpre].
    unfold candidate_path in Hin. rewrite Hpre in Hin.
    rewrite !string_app_length in Hin. cbn in Hin. lia.
  - now apply not_elem_of_empty in Hin.
Defined.

Lemma get_unique_filename_next_is_later_witness :
  exists k k', (1 <= k < k')%nat
    /\ "out/clip_1_modified_1.mp4"%string
       = candidate_path "out" "clip_1_modified" "mp4" k
    /\ get_unique_filename ({["out/clip_1_modified_1.mp4"%string]} ∪ ∅)
         "out" "clip_1_modified" "mp4"
       = Some (candidate_path "out" "clip_1_modified" "mp4" k').
Proof.
  apply (get_unique_filename_next_is_later "out" "clip_1_modified" "mp4" ∅).
  vm_compute. reflexivity.
Defined.

(** ** format_time *)

Lemma Qfloor_unique (z : Z) (x : Q) :
  inject_Z z <= x -> x < inject_Z (z + 1) -> Qfloor x = z.
Proof.
  intros Hle Hlt.
  pose proof (Qfloor_le x) as Hfloor. pose proof (Qlt_floor x) as Hceil.
  assert (H1 : inject_Z z < inject_Z (Qfloor x + 1)) by lra.
  assert (H2 : inject_Z (Qfloor x) < inject_Z (z + 1)) by lra.
  rewrite <- Zlt_Qlt in H1, H2. lia.
Qed.

Lemma int_of_inject_Z (z : Z) : int_of (inject_Z z) = z.
Proof.
  unfold int_of. destruct (Qle_bool 0 (inject_Z z));
    [apply Qfloor_Z | apply Qceiling_Z].
Qed.

(** [seconds % 60] lies between 0 and 60. *)
Lemma modulo_60_range (seconds : Q) :
  0 <= modulo seconds 60 /\ modulo seconds 60 < 60.
Proof.
  unfold modulo, floor_div.
  pose proof (Qfloor_le (seconds / 60)) as Hfloor.
  pose proof (Qlt_floor (seconds / 60)) as Hceil.
  rewrite inject_Z_plus in Hceil.
  change (inject_Z 1) with 1 in Hceil.
  assert (Hdiv : seconds / 60 * 60 == seconds) by (field; discriminate).
  split; nra.
Qed.

(** The two numbers that format_time prints are the quotient and the
    remainder of the whole seconds by 60. *)
Lemma format_time_parts (seconds : Q) :
  int_of (floor_div seconds 60) = (Qfloor seconds / 60)%Z
  /\ int_of (modulo seconds 60) = (Qfloor seconds mod 60)%Z.
Proof.
  destruct (modulo_60_range seconds) as [Hlow Hhigh].
  set (m := Qfloor (seconds / 60)).
  set (r := Qfloor (modulo seconds 60)).
  assert (Hint : int_of (modulo seconds 60) = r).
  { unfold int_of.
    replace (Qle_bool 0 (modulo seconds 60)) with true; [reflexivity |].
    symmetry. now apply Qle_bool_iff. }
  assert (Hr : (0 <= r < 60)%Z).
  { split.
    - change 0%Z with (Qfloor 0). now apply Qfloor_resp_le.
    - pose proof (Qfloor_le (modulo seconds 60)) as Hfloor. fold r in Hfloor.
      assert (Hlt : inject_Z r < inject_Z 60) by (change (inject_Z 60) with 60; lra).
      now rewrite <- Zlt_Qlt in Hlt. }
  assert (Hfloor : Qfloor seconds = (60 * m + r)%Z).
  { pose proof (Qfloor_le (modulo seconds 60)) as Hle.
    pose proof (Qlt_floor (modulo seconds 60)) as Hlt.
    fold r in Hle, Hlt. unfold modulo, floor_div in Hle, Hlt. fold m in Hle, Hlt.
    rewrite inject_Z_plus in Hlt. change (inject_Z 1) with 1 in Hlt.
    apply Qfloor_unique.
    - rewrite inject_Z_plus, inject_Z_mult. change (inject_Z 60) with 60. lra.
    - rewrite !inject_Z_plus, inject_Z_mult.
      change (inject_Z 60) with 60. change (inject_Z 1) with 1. lra. }
  unfold floor_div. rewrite int_of_inject_Z, Hint. fold m.
  rewrite Hfloor. split.
  - apply (Z.div_unique _ _ m r); lia.
  - apply (Z.mod_unique _ _ m r); lia.
Qed.

(** The strings [format_02d n] for [n] from 0 to 59. *)
Lemma format_02d_table :
  NoDup (map (fun n => format_02d (Z.of_nat n)) (seq 0 60))
  /\ Forall (fun s => String.length s = 2%nat)
       (map (fun n => format_02d (Z.of_nat n)) (seq 0 60)).
Proof.
  split.
  - apply (bool_decide_unpack _). vm_compute. exact I.
  - apply (bool_decide_unpack _). vm_compute. exact I.
Qed.

Lemma format_02d_lookup (n : Z) :
  (0 <= n < 60)%Z ->
  map (fun n => format_02d (Z.of_nat n)) (seq 0 60) !! Z.to_nat n
  = Some (format_02d n).
Proof.
  intros Hn. change (map ?f ?l) with (f <$> l).
  rewrite list_lookup_fmap, lookup_seq_lt by lia.
  cbn. f_equal. f_equal. lia.
Qed.

Lemma format_02d_length (n : Z) :
  (0 <= n < 60)%Z -> String.length (format_02d n) = 2%nat.
Proof.
  intros Hn. destruct format_02d_table as [_ Hall].
  rewrite Forall_lookup in Hall.
  exact (Hall _ _ (format_02d_lookup n Hn)).
Qed.

Lemma format_02d_inj (n n' : Z) :
  (0 <= n < 60)%Z -> (0 <= n' < 60)%Z ->
  format_02d n = format_02d n' -> n = n'.
Proof.
  intros Hn Hn' Heq. destruct format_02d_table as [Hnodup _].
  pose proof (format_02d_lookup n Hn) as H1.
  pose proof (format_02d_lookup n' Hn') as H2.
  rewrite <- Heq in H2.
  pose proof (NoDup_lookup _ _ _ _ Hnodup H1 H2). lia.
Qed.

Lemma str_of_Z_inj (a b : Z) : str_of_Z a = str_of_Z b -> a = b.
Proof.
  assert (Hnorm : forall z,
    NilZero.int_of_string (str_of_Z z) = Some (Z.to_int z)).
  { intros z. unfold str_of_Z. apply NilZero.isi; destruct z; cbn;
      try discriminate; intros [= Hnil];
      now apply DecimalPos.Unsigned.to_uint_nonnil in Hnil. }
  intros Heq. apply (f_equal NilZero.int_of_string) in Heq.
  rewrite !Hnorm in Heq. injection Heq as Heq. now apply to_int_inj.
Qed.

(** Two strings with tails of equal length have equal heads and equal
    tails as soon as they are equal. *)
Lemma string_app_inj_length (a b u v : string) :
  String.length u = String.length v -> a +:+ u = b +:+ v -> a = b /\ u = v.
Proof.
  intros Hlen. revert b.
  induction a as [| x a IH]; intros [| y b] Heq.
  - now split.
  - exfalso. apply (f_equal String.length) in Heq.
    change (String.length u = S (String.length (b +:+ v))) in Heq.
    rewrite string_app_length in Heq. lia.
  - exfalso. apply (f_equal String.length) in Heq.
    change (S (String.length (a +:+ u)) = String.length v) in Heq.
    rewrite string_app_length in Heq. lia.
  - change (String x (a +:+ u) = String y (b +:+ v)) in Heq.
    injection Heq as -> Heq. destruct (IH b Heq) as [-> ->]. now split.
Qed.

(** X12: for a time from 0 up to [2^53] seconds, the range in which
    Python's float [//] and [%] by 60 are exact, format_time prints the
    whole seconds [floor(seconds)] as their quotient by 60, a colon, and
    their remainder by 60 on exactly two digits. *)
Theorem format_time_minutes_and_seconds (seconds : Q) :
  0 <= seconds -> seconds < 9007199254740992 ->
  format_time seconds
  = str_of_Z (Qfloor seconds / 60) +:+ ":"
      +:+ format_02d (Qfloor seconds mod 60)
  /\ String.length (format_02d (Qfloor seconds mod 60)) = 2%nat.
Proof.
  intros _ _.
  destruct (format_time_parts seconds) as [Hmin Hsec].
  unfold format_time. rewrite Hmin, Hsec. split; [reflexivity |].
  apply format_02d_length. apply Z.mod_pos_bound. lia.
Qed.

(** X13: for two times from 0 up to [2^53] seconds, format_time shows
    them alike exactly when they have the same whole seconds: distinct
    whole seconds are never printed as the same string. *)
Theorem format_time_tells_seconds_apart (a b : Q) :
  0 <= a -> a < 9007199254740992 ->
  0 <= b -> b < 9007199254740992 ->
  format_time a = format_time b <-> Qfloor a = Qfloor b.
Proof.
  intros _ _ _ _.
  destruct (format_time_parts a) as [Hmin_a Hsec_a].
  destruct (format_time_parts b) as [Hmin_b Hsec_b].
  unfold format_time. rewrite Hmin_a, Hsec_a, Hmin_b, Hsec_b.
  split; [| now intros ->].
  intros Heq.
  assert (Hra : (0 <= Qfloor a mod 60 < 60)%Z) by (apply Z.mod_pos_bound; lia).
  assert (Hrb : (0 <= Qfloor b mod 60 < 60)%Z) by (apply Z.mod_pos_bound; lia).
  apply string_app_inj_length in Heq.
  2:{ change (S (String.length (format_02d (Qfloor a mod 60)))
              = S (String.length (format_02d (Qfloor b mod 60)))).
      now rewrite !format_02d_length. }
  destruct Heq as [Hmin Hsec].
  apply str_of_Z_inj in Hmin.
  injection Hsec as Hsec. apply format_02d_inj in Hsec; [| assumption ..].
  rewrite (Z.div_mod (Qfloor a) 60), (Z.div_mod (Qfloor b) 60) by lia.
  now rewrite Hmin, Hsec.
Qed.

Example format_time_docstring : format_time 90 = "1:30"%string.
Proof. reflexivity. Qed.

Lemma format_time_minutes_and_seconds_witness :
  format_time (7451 # 2) = "62:05"%string
  /\ String.length (format_02d (Qfloor (7451 # 2) mod 60)) = 2%nat.
Proof.
  apply (format_time_minutes_and_seconds (7451 # 2)).
  - vm_compute. discriminate.
  - vm_compute. reflexivity.
Defined.

Lemma format_time_tells_seconds_apart_witness :
  format_time (306 # 5) = format_time (619 # 10)
  <-> Qfloor (306 # 5) = Qfloor (619 # 10).
Proof.
  apply (format_time_tells_seconds_apart (306 # 5) (619 # 10)).
  - vm_compute. discriminate.
  - vm_compute. reflexivity.
  - vm_compute. discriminate.
  - vm_compute. reflexivity.
Defined.

(** ** modify_clip: every path through the loop *)

Section EditorMore.

Variable ext : Externals.
Variable output_folder : string.
Variable clip_index : Z.
Variables start_time end_time : Q.

Local Abbreviation run := (modify_clip ext output_folder clip_index
                             start_time end_time).
Local Abbreviation loop := (modify_loop ext output_folder clip_index
                              start_time end_time).

Lemma read_float_cases {A : Type} (stdin : list string) (w : World)
    (k : Q -> list string -> Run A) (o : Outcome A) (w' : World) :
  read_float ext stdin k w = (o, w') ->
  (o = Raised EOFError /\ w' = w /\ stdin = [])
  \/ (o = Raised ValueError /\ w' = w
      /\ exists line stdin', stdin = line :: stdin'
                             /\ to_float ext line = None)
  \/ (exists line x stdin', stdin = line :: stdin'
        /\ to_float ext line = Some x /\ k x stdin' w = (o, w')).
Proof.
  destruct stdin as [| line stdin']; cbn [read_float].
  - intros [= <- <-]. now left.
  - destruct (to_float ext line) as [x |] eqn:Hline.
    + intros Hk. right; right. now exists line, x, stdin'.
    + intros [= <- <-]. right; left. repeat split. now exists line, stdin'.
Qed.

(** A property of the world before and after, and of the outcome, holds
    of the loop as soon as it holds of its four ways to stop. *)
Lemma modify_loop_post (P : World -> Outcome (list string) -> World -> Prop) :
  (forall w e, e = EOFError \/ e = ValueError -> P w (Raised e) w) ->
  (forall w rest, P w (Returned rest) w) ->
  (forall w new_start new_end stdin o w',
     export_modified ext output_folder clip_index new_start new_end stdin w
     = (o, w') -> P w o w') ->
  (forall w middle_start middle_end stdin o w',
     trim_middle ext output_folder clip_index start_time end_time
       middle_start middle_end stdin w = (o, w') -> P w o w') ->
  forall stdin w o w', loop stdin w = (o, w') -> P w o w'.
Proof.
  intros Hraise Hback Hexport Hmiddle.
  assert (Hone : forall (f g : Q -> Q) stdin w o w',
    read_float ext stdin (fun x stdin' =>
      export_modified ext output_folder clip_index (f x) (g x) stdin') w
    = (o, w') -> P w o w').
  { intros f g stdin w o w' Hrun. apply read_float_cases in Hrun.
    destruct Hrun as [(-> & -> & _) | [(-> & -> & _) | (? & x & ? & _ & _ & Hrun)]];
      [apply Hraise; auto | apply Hraise; auto | now apply Hexport in Hrun]. }
  assert (Htwo : forall (f g : Q -> Q -> Q) stdin w o w',
    read_float ext stdin (fun x stdin' =>
      read_float ext stdin' (fun y stdin'' =>
        export_modified ext output_folder clip_index (f x y) (g x y) stdin'')) w
    = (o, w') -> P w o w').
  { intros f g stdin w o w' Hrun. apply read_float_cases in Hrun.
    destruct Hrun as [(-> & -> & _) | [(-> & -> & _) | (? & x & ? & _ & _ & Hrun)]];
      [apply Hraise; auto | apply Hraise; auto |].
    apply read_float_cases in Hrun.
    destruct Hrun as [(-> & -> & _) | [(-> & -> & _) | (? & y & ? & _ & _ & Hrun)]];
      [apply Hraise; auto | apply Hraise; auto | now apply Hexport in Hrun]. }
  assert (Hmid : forall stdin w o w',
    read_float ext stdin (fun x stdin' =>
      read_float ext stdin' (fun y stdin'' =>
        trim_middle ext output_folder clip_index start_time end_time x y
          stdin'')) w
    = (o, w') -> P w o w').
  { intros stdin w o w' Hrun. apply read_float_cases in Hrun.
    destruct Hrun as [(-> & -> & _) | [(-> & -> & _) | (? & x & ? & _ & _ & Hrun)]];
      [apply Hraise; auto | apply Hraise; auto |].
    apply read_float_cases in Hrun.
    destruct Hrun as [(-> & -> & _) | [(-> & -> & _) | (? & y & ? & _ & _ & Hrun)]];
      [apply Hraise; auto | apply Hraise; auto | now apply Hmiddle in Hrun]. }
  intros stdin. remember (length stdin) as n eqn:Hn.
  assert (Hlen : (length stdin <= n)%nat) by lia. clear Hn.
  revert stdin Hlen.
  induction n as [| n IH]; intros stdin Hlen w o w' Hrun.
  { destruct stdin; [| cbn in Hlen; lia].
    injection Hrun as <- <-. apply Hraise. auto. }
  destruct stdin as [| m stdin1]; cbn [modify_loop] in Hrun.
  { injection Hrun as <- <-. apply Hraise. auto. }
  cbn [length] in Hlen.
  destruct (String.eqb m "0").
  { injection Hrun as <- <-. apply Hback. }
  destruct (String.eqb m "1");
    [| destruct (String.eqb m "2");
       [| apply (IH stdin1 ltac:(lia) _ _ _ Hrun)]].
  - destruct stdin1 as [| t stdin2].
    { injection Hrun as <- <-. apply Hraise. auto. }
    cbn [length] in Hlen.
    destruct (String.eqb t "0"); [apply (IH stdin2 ltac:(lia) _ _ _ Hrun) |].
    destruct (String.eqb t "1");
      [exact (Hone (fun x => Qmax (start_time - x) 0) (fun _ => end_time)
                _ _ _ _ Hrun) |].
    destruct (String.eqb t "2");
      [exact (Hone (fun _ => start_time)
                (fun x => Qmin (end_time + x) (video_duration ext))
                _ _ _ _ Hrun) |].
    destruct (String.eqb t "3");
      [exact (Htwo (fun x _ => Qmax (start_time - x) 0)
                (fun _ y => Qmin (end_time + y) (video_duration ext))
                _ _ _ _ Hrun) |].
    apply (IH stdin2 ltac:(lia) _ _ _ Hrun).
  - destruct stdin1 as [| t stdin2].
    { injection Hrun as <- <-. apply Hraise. auto. }
    cbn [length] in Hlen.
    destruct (String.eqb t "0"); [apply (IH stdin2 ltac:(lia) _ _ _ Hrun) |].
    destruct (String.eqb t "1");
      [exact (Hone (fun x => start_time + x) (fun _ => end_time)
                _ _ _ _ Hrun) |].
    destruct (String.eqb t "2");
      [exact (Hone (fun _ => start_time) (fun x => end_time - x)
                _ _ _ _ Hrun) |].
    destruct (String.eqb t "3");
      [exact (Htwo (fun x _ => start_time + x) (fun _ y => end_time - y)
                _ _ _ _ Hrun) |].
    destruct (String.eqb t "4"); [exact (Hmid _ _ _ _ Hrun) |].
    apply (IH stdin2 ltac:(lia) _ _ _ Hrun).
Qed.

(** What an edit leaves behind when it does not return. *)
Lemma modify_clip_raised (stdin : list string) (w : World)
    (o : Outcome (list string)) (w' : World) :
  run stdin w = (o, w') ->
  match o with
  | Returned _ => True
  | Raised e =>
      editor_error e
      /\ files w' = files w /\ exports w' = exports w /\ clips w' = clips w
  | OutOfFuel => False
  end.
Proof.
  rewrite modify_clip_run. intros Hrun.
  change (files w) with (files (with_video_open w)).
  change (exports w) with (exports (with_video_open w)).
  change (clips w) with (clips (with_video_open w)).
  revert Hrun. generalize (with_video_open w). clear w. intros w Hrun.
  pattern w, o, w'. eapply modify_loop_post; [.. | exact Hrun]; clear.
  - intros w e He. split; [unfold editor_error; tauto | easy].
  - easy.
  - intros w new_start new_end stdin o w' Hrun.
    destruct (export_modified_result ext output_folder clip_index
                new_start new_end stdin w) as (path & _ & _ & Hres).
    rewrite Hres in Hrun.
    destruct (encodes ext path _); injection Hrun as <- <-; [easy |].
    split; [unfold editor_error; tauto | easy].
  - intros w middle_start middle_end stdin o w' Hrun.
    destruct (trim_middle_result ext output_folder clip_index
                start_time end_time middle_start middle_end stdin w)
      as (path & _ & _ & Hres).
    rewrite Hres in Hrun.
    destruct (encodes ext path _); injection Hrun as <- <-; [easy |].
    split; [unfold editor_error; tauto | easy].
Qed.

(** X14: a failed edit adds no clip. modify_clip never runs out of the
    model's budget, the only exceptions it lets escape are [EOFError],
    [ValueError] and [MediaError], and when it raises, the clip list and
    the log of finished exports are as they were before the call:
    [clips.append] comes after [write_videofile] on every path. *)
Theorem modify_clip_fails_without_trace (stdin : list string) (w : World)
    (o : Outcome (list string)) (w' : World) :
  run stdin w = (o, w') ->
  o <> OutOfFuel
  /\ forall e, o = Raised e ->
       editor_error e /\ exports w' = exports w /\ clips w' = clips w.
Proof.
  intros Hrun. apply modify_clip_raised in Hrun.
  split.
  - intros ->. exact Hrun.
  - intros e ->. destruct Hrun as (He & _ & Hex & Hcl). now repeat split.
Qed.


(** X16: whatever numbers are entered, negative ones and ones larger
    than the clip included, Trim Front, Back and Both export and
    append, with rating 0, the range from [start_time + front] (Front,
    Both; else [start_time]) to [end_time - back] (Back, Both; else
    [end_time]): unlike Add, nothing clamps or checks the result, so a
    range that ends before it begins is exported as it is. *)
Theorem modify_clip_trim_is_unchecked (w : World) (rest : list string)
    (front_line back_line : string) (front_time back_time : Q) :
  to_float ext front_line = Some front_time ->
  to_float ext back_line = Some back_time ->
  let new_start := start_time + front_time in
  let new_end := end_time - back_time in
  exists path,
    get_unique_filename (files w) output_folder (modified_name clip_index)
      "mp4" = Some path
    /\ edit_result ext w (run ("2" :: "1" :: front_line :: rest)%string w)
         rest path [(new_start, end_time)] [(new_start, end_time, 0%nat)]
    /\ edit_result ext w (run ("2" :: "2" :: back_line :: rest)%string w)
         rest path [(start_time, new_end)] [(start_time, new_end, 0%nat)]
    /\ edit_result ext w
         (run ("2" :: "3" :: front_line :: back_line :: rest)%string w)
         rest path [(new_start, new_end)] [(new_start, new_end, 0%nat)].
Proof.
  intros Hfront Hback new_start new_end.
  destruct (get_unique_filename_total (files w) output_folder
              (modified_name clip_index) "mp4") as [path Hpath].
  exists path. split; [exact Hpath |].
  split; [| split].
  - apply edit_result_of_export; [| exact Hpath].
    rewrite modify_clip_run.
    cbn [modify_loop String.eqb Ascii.eqb Bool.eqb read_float].
    now rewrite Hfront.
  - apply edit_result_of_export; [| exact Hpath].
    rewrite modify_clip_run.
    cbn [modify_loop String.eqb Ascii.eqb Bool.eqb read_float].
    now rewrite Hback.
  - apply edit_result_of_export; [| exact Hpath].
    rewrite modify_clip_run.
    cbn [modify_loop String.eqb Ascii.eqb Bool.eqb read_float].
    now rewrite Hfront, Hback.
Qed.

(** X17: for a clip inside the video ([0 <= start_time],
    [end_time <= video_duration]) and seconds that are not negative,
    Add Both exports and appends a range that contains the clip and
    stays inside the video. *)
Theorem modify_clip_add_extends (w : World) (rest : list string)
    (front_line back_line : string) (front_time back_time : Q) :
  to_float ext front_line = Some front_time ->
  to_float ext back_line = Some back_time ->
  0 <= front_time -> 0 <= back_time ->
  0 <= start_time -> end_time <= video_duration ext ->
  exists path new_start new_end,
    get_unique_filename (files w) output_folder (modified_name clip_index)
      "mp4" = Some path
    /\ edit_result ext w
         (run ("1" :: "3" :: front_line :: back_line :: rest)%string w)
         rest path [(new_start, new_end)] [(new_start, new_end, 0%nat)]
    /\ 0 <= new_start /\ new_start <= start_time
    /\ end_time <= new_end /\ new_end <= video_duration ext.
Proof.
  intros Hfront Hback Hf Hb Hs He.
  destruct (get_unique_filename_total (files w) output_folder
              (modified_name clip_index) "mp4") as [path Hpath].
  exists path, (Qmax (start_time - front_time) 0),
    (Qmin (end_time + back_time) (video_duration ext)).
  split; [exact Hpath |]. split.
  - apply edit_result_of_export; [| exact Hpath].
    rewrite modify_clip_run.
    cbn [modify_loop String.eqb Ascii.eqb Bool.eqb read_float].
    now rewrite Hfront, Hback.
  - repeat split.
    + apply Q.le_max_r.
    + apply Q.max_lub; lra.
    + apply Q.min_glb; lra.
    + apply Q.le_min_r.
Qed.

End EditorMore.

Lemma modify_clip_fails_without_trace_witness :
  let ext := decimal_externals 200 (fun _ _ => false) in
  let w := empty_world [(10, 190, 3%nat)] in
  let res := modify_clip ext "out" 1 10 190 ["1"; "1"; "30"]%string w in
  fst res <> OutOfFuel
  /\ forall e, fst res = Raised e ->
       editor_error e
       /\ exports (snd res) = exports w /\ clips (snd res) = clips w.
Proof.
  intros ext w res.
  apply (modify_clip_fails_without_trace ext "out" 1 10 190
           ["1"; "1"; "30"]%string w (fst res) (snd res)).
  unfold res. now destruct (modify_clip _ _ _ _ _ _ _).
Defined.


Lemma modify_clip_trim_is_unchecked_witness :
  let ext := decimal_externals 200 (fun _ _ => true) in
  let w := empty_world [(10, 50, 3%nat)] in
  exists path,
    get_unique_filename (files w) "out" (modified_name 1) "mp4" = Some path
    /\ edit_result ext w
         (modify_clip ext "out" 1 10 50 ["2"; "1"; "30"]%string w)
         [] path [(40, 50)] [(40, 50, 0%nat)]
    /\ edit_result ext w
         (modify_clip ext "out" 1 10 50 ["2"; "2"; "30"]%string w)
         [] path [(10, 20)] [(10, 20, 0%nat)]
    /\ edit_result ext w
         (modify_clip ext "out" 1 10 50 ["2"; "3"; "30"; "30"]%string w)
         [] path [(40, 20)] [(40, 20, 0%nat)].
Proof.
  exact (modify_clip_trim_is_unchecked
           (decimal_externals 200 (fun _ _ => true)) "out" 1 10 50
           (empty_world [(10, 50, 3%nat)]) [] "30" "30" 30 30
           eq_refl eq_refl).
Defined.

Lemma modify_clip_add_extends_witness :
  let ext := decimal_externals 200 (fun _ _ => true) in
  let w := empty_world [(10, 190, 3%nat)] in
  exists path new_start new_end,
    get_unique_filename (files w) "out" (modified_name 1) "mp4" = Some path
    /\ edit_result ext w
         (modify_clip ext "out" 1 10 190 ["1"; "3"; "30"; "5"]%string w)
         [] path [(new_start, new_end)] [(new_start, new_end, 0%nat)]
    /\ 0 <= new_start /\ new_start <= 10
    /\ 190 <= new_end /\ new_end <= 200.
Proof.
  apply (modify_clip_add_extends
           (decimal_externals 200 (fun _ _ => true)) "out" 1 10 190
           (empty_world [(10, 190, 3%nat)]) [] "30" "5" 30 5
           eq_refl eq_refl); cbn; lra.
Defined.

(** ** interactive_modification: the whole session *)

Lemma grows_refl (w : World) : grows w w.
Proof.
  exists [], []. cbn [map length]. rewrite !app_nil_r, union_list_nil.
  repeat split; constructor.
Qed.

Lemma grows_fields (w w' : World) :
  files w' = files w -> exports w' = exports w -> clips w' = clips w ->
  grows w w'.
Proof.
  intros Hf He Hc. destruct (grows_refl w) as (new & written & H).
  exists new, written. now rewrite Hf, He, Hc.
Qed.

Lemma union_list_app (l1 l2 : list string) (X : gset string) :
  list_to_set (l1 ++ l2) ∪ X = list_to_set l2 ∪ (list_to_set l1 ∪ X).
Proof.
  revert X. induction l1 as [| p l1 IH]; intros X; cbn [app].
  - now rewrite union_list_nil.
  - now rewrite !union_list_cons, IH.
Qed.

Lemma elem_of_union_list (p : string) (l : list string) (X : gset string) :
  p ∈ list_to_set l ∪ X <-> In p l \/ p ∈ X.
Proof.
  rewrite elem_of_union, elem_of_list_to_set, list_elem_of_In. tauto.
Qed.

Lemma grows_trans (w1 w2 w3 : World) :
  grows w1 w2 -> grows w2 w3 -> grows w1 w3.
Proof.
  intros (new1 & wr1 & Hc1 & Hr1 & He1 & Hf1 & Hn1 & Hfresh1 & Hlen1)
         (new2 & wr2 & Hc2 & Hr2 & He2 & Hf2 & Hn2 & Hfresh2 & Hlen2).
  exists (new1 ++ new2), (wr1 ++ wr2).
  rewrite Forall_forall in Hfresh2.
  split; [now rewrite Hc2, Hc1, app_assoc |].
  split; [apply Forall_app; now split |].
  split; [now rewrite He2, He1, app_assoc |].
  split; [now rewrite Hf2, Hf1, map_app, union_list_app |].
  split.
  - rewrite map_app. apply NoDup_app. split; [exact Hn1 |].
    split; [| exact Hn2].
    intros p Hp1 Hp2. apply (Hfresh2 p Hp2).
    rewrite Hf1. apply elem_of_union_list. left. now apply list_elem_of_In.
  - split.
    + rewrite map_app. apply Forall_app. split; [exact Hfresh1 |].
      apply Forall_forall. intros p Hp Hin. apply (Hfresh2 p Hp).
      rewrite Hf1. apply elem_of_union_list. now right.
    + rewrite !length_app. lia.
Qed.

Lemma grows_exports_length (w w' : World) :
  grows w w' -> (length (exports w) <= length (exports w'))%nat.
Proof.
  intros (new & written & _ & _ & -> & _). rewrite length_app. lia.
Qed.

Section Session.

Variable ext : Externals.
Variable output_folder : string.

(** One call of modify_clip, whatever its outcome. *)
Lemma modify_clip_grows (clip_index : Z) (start_time end_time : Q)
    (stdin : list string) (w : World)
    (o : Outcome (list string)) (w' : World) :
  modify_clip ext output_folder clip_index start_time end_time stdin w
  = (o, w') ->
  grows w w'
  /\ (length (exports w') <= S (length (exports w)))%nat
  /\ open_videos w' = S (open_videos w).
Proof.
  intros Hrun.
  pose proof (modify_clip_keeps_handle_open _ _ _ _ _ _ _ _ _ Hrun) as Hopen.
  rewrite modify_clip_run in Hrun.
  assert (Hloop : grows (with_video_open w) w'
                  /\ (length (exports w')
                      <= S (length (exports (with_video_open w))))%nat).
  { revert Hrun. generalize (with_video_open w). intros w0 Hrun.
    pattern w0, o, w'.
    eapply modify_loop_post; [.. | exact Hrun]; clear.
    - intros w _ _. split; [apply grows_refl | lia].
    - intros w _. split; [apply grows_refl | lia].
    - intros w new_start new_end stdin o w' Hrun.
      destruct (export_modified_result ext output_folder clip_index
                  new_start new_end stdin w) as (path & _ & Hfresh & Hres).
      rewrite Hres in Hrun.
      destruct (encodes ext path _); injection Hrun as <- <-;
        [| split; [apply grows_refl | lia]].
      split; [| cbn [exports]; rewrite length_app; cbn; lia].
      exists [(new_start, new_end, 0%nat)], [(path, [(new_start, new_end)])].
      cbn [files exports clips map fst length].
      rewrite union_list_cons, union_list_nil.
      split; [reflexivity |]. split; [repeat constructor |].
      split; [reflexivity |]. split; [reflexivity |].
      split; [apply NoDup_singleton |].
      split; [constructor; [exact Hfresh | constructor] | lia].
    - intros w middle_start middle_end stdin o w' Hrun.
      destruct (trim_middle_result ext output_folder clip_index
                  start_time end_time middle_start middle_end stdin w)
        as (path & _ & Hfresh & Hres).
      rewrite Hres in Hrun.
      destruct (encodes ext path _); injection Hrun as <- <-;
        [| split; [apply grows_refl | lia]].
      split; [| cbn [exports]; rewrite length_app; cbn; lia].
      eexists [_; _], [(path, _)].
      cbn [files exports clips map fst length].
      rewrite union_list_cons, union_list_nil.
      split; [reflexivity |]. split; [repeat constructor |].
      split; [reflexivity |]. split; [reflexivity |].
      split; [apply NoDup_singleton |].
      split; [constructor; [exact Hfresh | constructor] | lia]. }
  destruct Hloop as [Hgrows Hlen].
  split; [| split; [exact Hlen | exact Hopen]].
  apply (grows_trans w (with_video_open w)); [| exact Hgrows].
  now apply grows_fields.
Qed.

Lemma modify_clip_reads (clip_index : Z) (start_time end_time : Q)
    (stdin rest : list string) (w w' : World) :
  modify_clip ext output_folder clip_index start_time end_time stdin w
  = (Returned rest, w') ->
  (length rest < length stdin)%nat.
Proof.
  rewrite modify_clip_run. intros Hrun.
  apply (modify_loop_effects _ _ _ _ _ (length stdin) stdin (Nat.le_refl _))
    in Hrun.
  destruct Hrun as [_ Heff].
  destruct (Heff rest eq_refl)
    as [(pre & -> & _) | [(pre & m & t & args & ? & ? & ? & -> & _)
                         | (pre & l1 & l2 & ? & ? & ? & ? & ? & -> & _)]];
    rewrite ?length_app; cbn [length]; rewrite ?length_app; lia.
Qed.

(** The menu loop, whatever its outcome. *)
Lemma interactive_modification_summary (fuel : nat) :
  forall stdin w o w',
  interactive_modification fuel ext output_folder stdin w = (o, w') ->
  grows w w'
  /\ (open_videos w + (length (exports w') - length (exports w))
      <= open_videos w')%nat
  /\ match o with
     | Returned rest => (length rest < length stdin)%nat
     | Raised e => editor_error e
     | OutOfFuel => (fuel <= length stdin)%nat
     end.
Proof.
  induction fuel as [| fuel IH]; intros stdin w o w' Hrun;
    cbn [interactive_modification] in Hrun.
  { injection Hrun as <- <-. split; [apply grows_refl |]. split; lia. }
  destruct stdin as [| line stdin1].
  { injection Hrun as <- <-. split; [apply grows_refl |].
    split; [lia | unfold editor_error; tauto]. }
  destruct (String.eqb (lower line) "done").
  { injection Hrun as <- <-. split; [apply grows_refl |].
    split; cbn [length]; lia. }
  assert (Hskip :
    interactive_modification fuel ext output_folder stdin1 w = (o, w') ->
    grows w w'
    /\ (open_videos w + (length (exports w') - length (exports w))
        <= open_videos w')%nat
    /\ match o with
       | Returned rest => (length rest < length (line :: stdin1))%nat
       | Raised e => editor_error e
       | OutOfFuel => (S fuel <= length (line :: stdin1))%nat
       end).
  { intros Hnext. destruct (IH _ _ _ _ Hnext) as (Hg & Hh & Ho).
    split; [exact Hg |]. split; [exact Hh |].
    destruct o; cbn [length]; [lia | exact Ho | lia]. }
  destruct (to_int ext line) as [n |]; [| now apply Hskip].
  rewrite bind_run in Hrun. cbn [read_clips] in Hrun.
  destruct ((n <? 1)%Z || (Z.of_nat (length (clips w)) <? n)%Z) eqn:Hrange;
    [now apply Hskip |].
  apply orb_false_iff in Hrange. destruct Hrange as [Hlow Hhigh].
  apply Z.ltb_ge in Hlow, Hhigh.
  rewrite bind_run in Hrun. unfold clip_at in Hrun.
  destruct (nth_error (clips w) (Z.to_nat (n - 1))) as [c |] eqn:Hnth.
  2:{ apply nth_error_None in Hnth. lia. }
  rewrite bind_run in Hrun.
  destruct (modify_clip ext output_folder n (clip_start c) (clip_end c)
              stdin1 w) as [o1 w1] eqn:Hedit.
  pose proof (modify_clip_grows _ _ _ _ _ _ _ Hedit) as (Hg1 & Hlen1 & Hopen1).
  pose proof (grows_exports_length _ _ Hg1) as Hmono1.
  destruct o1 as [stdin2 | e |].
  - apply modify_clip_reads in Hedit.
    destruct (IH _ _ _ _ Hrun) as (Hg2 & Hh2 & Ho).
    pose proof (grows_exports_length _ _ Hg2) as Hmono2.
    split; [now apply (grows_trans w w1) |]. split; [lia |].
    destruct o; cbn [length]; [lia | exact Ho | lia].
  - injection Hrun as <- <-. split; [exact Hg1 |]. split; [lia |].
    apply modify_clip_raised in Hedit. now destruct Hedit.
  - now apply modify_clip_raised in Hedit.
Qed.

(** X18: whatever is typed and however the session ends,
    interactive_modification only adds: the clips present at the start
    keep their places in the list, every clip added has rating 0, and
    every file written has a name that did not exist at the start and
    that no other export of the session uses. *)
Theorem interactive_modification_only_adds (fuel : nat)
    (stdin : list string) (w : World)
    (o : Outcome (list string)) (w' : World) :
  interactive_modification fuel ext output_folder stdin w = (o, w') ->
  grows w w'.
Proof.
  intros Hrun. now apply interactive_modification_summary in Hrun.
Qed.

(** X19: the session lets only [EOFError], [ValueError] and
    [MediaError] escape: [clips[clip_index - 1]] never raises
    [IndexError], because the index is checked first. And a budget of
    more iterations than there are console lines is never exhausted:
    on a finite input the menu loop ends. *)
Theorem interactive_modification_ends (fuel : nat)
    (stdin : list string) (w : World)
    (o : Outcome (list string)) (w' : World) :
  interactive_modification fuel ext output_folder stdin w = (o, w') ->
  (forall e, o = Raised e -> editor_error e /\ e <> IndexError)
  /\ ((length stdin < fuel)%nat -> o <> OutOfFuel).
Proof.
  intros Hrun. apply interactive_modification_summary in Hrun.
  destruct Hrun as (_ & _ & Ho). split.
  - intros e ->. split; [exact Ho |].
    destruct Ho as [-> | [-> | ->]]; discriminate.
  - intros Hfuel ->. lia.
Qed.


(** X21: a line that [int()] rejects, or a number outside
    [1..len(clips)], changes nothing: the menu asks again and goes on
    with the next line. *)
Theorem interactive_modification_asks_again (fuel : nat) (line : string)
    (rest : list string) (w : World) :
  lower line <> "done"%string ->
  to_int ext line = None
  \/ (exists n, to_int ext line = Some n
                /\ (n < 1 \/ Z.of_nat (length (clips w)) < n)%Z) ->
  interactive_modification (S fuel) ext output_folder (line :: rest) w
  = interactive_modification fuel ext output_folder rest w.
Proof.
  intros Hdone Hbad. cbn [interactive_modification].
  apply String.eqb_neq in Hdone. rewrite Hdone.
  destruct Hbad as [-> | (n & -> & Hrange)]; [reflexivity |].
  rewrite bind_run. cbn [read_clips].
  replace ((n <? 1)%Z || (Z.of_nat (length (clips w)) <? n)%Z) with true;
    [reflexivity |].
  symmetry. apply orb_true_iff.
  destruct Hrange as [Hlow | Hhigh]; [left | right]; now apply Z.ltb_lt.
Qed.

End Session.

Lemma interactive_modification_only_adds_witness :
  let ext := decimal_externals 1000 (fun _ _ => true) in
  let w := empty_world [(100, 160, 3%nat)] in
  let res := interactive_modification 10 ext "out"
               ["5"; "abc"; "1"; "2"; "4"; "20"; "40"; "done"]%string w in
  grows w (snd res).
Proof.
  intros ext w res.
  apply (interactive_modification_only_adds ext "out" 10
           ["5"; "abc"; "1"; "2"; "4"; "20"; "40"; "done"]%string w
           (fst res) (snd res)).
  unfold res. now destruct (interactive_modification _ _ _ _ _).
Defined.

Lemma interactive_modification_ends_witness :
  let ext := decimal_externals 1000 (fun _ _ => true) in
  let w := empty_world [(100, 160, 3%nat)] in
  let stdin := ["5"; "abc"; "1"; "2"; "4"; "20"; "40"; "done"]%string in
  let res := interactive_modification 10 ext "out" stdin w in
  (forall e, fst res = Raised e -> editor_error e /\ e <> IndexError)
  /\ ((length stdin < 10)%nat -> fst res <> OutOfFuel).
Proof.
  intros ext w stdin res.
  apply (interactive_modification_ends ext "out" 10 stdin w
           (fst res) (snd res)).
  unfold res. now destruct (interactive_modification _ _ _ _ _).
Defined.


Lemma interactive_modification_asks_again_witness :
  let ext := decimal_externals 1000 (fun _ _ => true) in
  let w := empty_world [(100, 160, 3%nat)] in
  interactive_modification 3 ext "out" ["2"; "done"]%string w
  = interactive_modification 2 ext "out" ["done"%string] w.
Proof.
  intros ext w.
  apply (interactive_modification_asks_again ext "out" 2 "2"
           ["done"%string] w).
  - cbn. discriminate.
  - right. exists 2%Z. split; [reflexivity |]. right. cbn. lia.
Defined.

(** ** The main program *)

Lemma segmenter_cuts_rated (peak_times : list Peak)
    (min_duration max_duration : Q) :
  0 < min_duration ->
  Forall (fun c => (1 <= clip_rating c)%nat
                   /\ min_duration <= clip_end c - clip_start c)
    (rate_cuts (segmenter peak_times min_duration max_duration)).
Proof.
  intros Hpos. unfold rate_cuts. apply Forall_map.
  eapply Forall_impl; [apply segmenter_ok |].
  intros c [Hmin Hshape]. cbn [clip_rating clip_start clip_end fst snd].
  split; [| exact Hmin]. unfold rate_clip.
  destruct Hshape as [(_ & Hs & He) | [(Hps & _) | (p & _ & Hps & _)]].
  - rewrite Hs, He in Hmin. lra.
  - destruct (cut_peaks c); [contradiction | cbn; lia].
  - rewrite Hps. cbn. lia.
Qed.

Lemma ensure_folder_effect (output_folder : string) (ancestors : gset string)
    (created : bool) (w : World) :
  exists o w0,
    ensure_folder output_folder ancestors created w = (o, w0)
    /\ files w ⊆ files w0
    /\ exports w0 = exports w /\ clips w0 = clips w
    /\ match o with
       | Returned _ => output_folder ∈ files w0
       | Raised e =>
           e = OSError /\ (output_folder ∉ files w) /\ created = false
       | OutOfFuel => False
       end.
Proof.
  unfold ensure_folder. case_bool_decide as Hin.
  - exists (Returned tt), w. now repeat split.
  - destruct created; eexists _, _; (split; [reflexivity |]);
      cbn [files exports clips].
    + split; [intros p Hp; now apply elem_of_union_r |].
      split; [reflexivity |]. split; [reflexivity |].
      apply elem_of_union_l, elem_of_union_l. now apply elem_of_singleton.
    + split; [intros p Hp; now apply elem_of_union_r |].
      now repeat split.
Qed.

(** What a run of the script went through, and what it leaves. *)
Lemma main_summary (fuel : nat) (ext : Externals) (peak_times : list Peak)
    (output_folder : string) (ancestors : gset string) (created : bool)
    (stdin : list string) (w : World)
    (o : Outcome (list string)) (w' : World) :
  main fuel ext peak_times output_folder ancestors created stdin w = (o, w') ->
  files w ⊆ files w'
  /\ (exists written, exports w' = exports w ++ written)
  /\ (o <> Raised OSError -> output_folder ∈ files w')
  /\ (o = Raised OSError ->
      (output_folder ∉ files w) /\ created = false
      /\ exports w' = exports w /\ clips w' = clips w)
  /\ (forall rest, o = Returned rest ->
      exists line stdin1 num_clips w0 w1 selected edits,
        stdin = line :: stdin1
        /\ to_int ext line = Some num_clips
        /\ ensure_folder output_folder ancestors created w = (Returned tt, w0)
        /\ split_video_into_clips ext peak_times output_folder num_clips
             30 89 w0 = (Returned selected, w1)
        /\ selected
           = select_top (rate_cuts (segmenter peak_times 30 89)) num_clips
        /\ interactive_modification fuel ext output_folder stdin1
             (snd (bind_clips selected w1)) = (Returned rest, w')
        /\ clips w' = selected ++ edits
        /\ Forall (fun c => clip_rating c = 0%nat) edits).
Proof.
  unfold main. rewrite bind_run.
  destruct (ensure_folder_effect output_folder ancestors created w)
    as (o0 & w0 & Hensure & Hfiles & Hex0 & Hcl0 & Ho0).
  rewrite Hensure.
  destruct o0 as [[] | e |]; [| | contradiction].
  2:{ destruct Ho0 as (-> & Hnew & Hcreated). intros [= <- <-].
      split; [exact Hfiles |].
      split; [exists []; now rewrite app_nil_r |].
      split; [congruence |]. split; [now intros _ |]. discriminate. }
  assert (Hstop : forall e : Exn, e <> OSError ->
    files w ⊆ files w0
    /\ (exists written, exports w0 = exports w ++ written)
    /\ (@Raised (list string) e <> Raised OSError -> output_folder ∈ files w0)
    /\ (@Raised (list string) e = Raised OSError ->
        (output_folder ∉ files w) /\ created = false
        /\ exports w0 = exports w /\ clips w0 = clips w)
    /\ (forall rest, @Raised (list string) e = Returned rest ->
        exists line stdin1 num_clips w0' w1 selected edits,
          stdin = line :: stdin1
          /\ to_int ext line = Some num_clips
          /\ (Returned tt, w0) = (Returned tt, w0')
          /\ split_video_into_clips ext peak_times output_folder num_clips
               30 89 w0' = (Returned selected, w1)
          /\ selected
             = select_top (rate_cuts (segmenter peak_times 30 89)) num_clips
          /\ interactive_modification fuel ext output_folder stdin1
               (snd (bind_clips selected w1)) = (Returned rest, w0)
          /\ clips w0 = selected ++ edits
          /\ Forall (fun c => clip_rating c = 0%nat) edits)).
  { intros e He. split; [exact Hfiles |].
    split; [exists []; now rewrite app_nil_r |].
    split; [now intros _ |]. split; [congruence | discriminate]. }
  destruct stdin as [| line stdin1].
  { intros [= <- <-]. now apply Hstop. }
  destruct (to_int ext line) as [num_clips |] eqn:Hint.
  2:{ intros [= <- <-]. now apply Hstop. }
  rewrite bind_run.
  destruct (split_video_into_clips ext peak_times output_folder num_clips
              30 89 w0) as [o1 w1] eqn:Hsplit.
  pose proof (split_video_into_clips_progress _ _ _ _ _ _ _ _ _ Hsplit)
    as (k & Hex1 & Hfiles1 & _ & Ho1).
  assert (Hsub1 : files w0 ⊆ files w1).
  { intros p Hp. rewrite Hfiles1. now apply elem_of_union_r. }
  destruct o1 as [cl | e |]; [| | contradiction].
  2:{ destruct Ho1 as [-> _]. intros [= <- <-].
      split; [now transitivity (files w0) |].
      split; [eexists; now rewrite Hex1, Hex0 |].
      split; [intros _; now apply Hsub1 |].
      split; discriminate. }
  destruct Ho1 as [Hcl _].
  rewrite bind_run. cbn [bind_clips]. intros Hrun.
  pose proof (interactive_modification_summary _ _ _ _ _ _ _ Hrun)
    as ((new & written & Hclips & Hrated & Hex & Hfiles' & _) & _ & Ho).
  cbn [files exports clips] in Hclips, Hex, Hfiles'.
  assert (Hsub2 : files w1 ⊆ files w').
  { intros p Hp. rewrite Hfiles'. now apply elem_of_union_r. }
  split; [now transitivity (files w0); [| transitivity (files w1)] |].
  split; [eexists; now rewrite Hex, Hex1, Hex0, <- app_assoc |].
  split; [intros _; now apply Hsub2, Hsub1 |].
  split.
  { intros ->. unfold editor_error in Ho.
    destruct Ho as [Ho | [Ho | Ho]]; discriminate. }
  intros rest ->.
  exists line, stdin1, num_clips, w0, w1, cl, new.
  split; [reflexivity |]. split; [exact Hint |]. split; [reflexivity |].
  split; [exact Hsplit |]. split; [exact Hcl |]. split; [exact Hrun |].
  split; [exact Hclips | exact Hrated].
Qed.

(** X22: a run of the script that returns read the number of clips
    from the first line of input, got from split_video_into_clips,
    called with a minimum of 30 and a cap of 89 seconds once the output
    folder is there, the [num_clips] best-rated cuts of the segmenter,
    bound them to [clips] and ran the editor on the rest of the input.
    The clip list at the end is that selection, sorted by rating with
    the best first, each clip rated at least 1 and at least 30 seconds
    long, followed by the clips made in the editor, all rated 0. *)
Theorem main_clip_list (fuel : nat) (ext : Externals)
    (peak_times : list Peak) (output_folder : string)
    (ancestors : gset string) (created : bool)
    (stdin rest : list string) (w w' : World) :
  main fuel ext peak_times output_folder ancestors created stdin w
  = (Returned rest, w') ->
  exists line stdin1 num_clips w0 w1 selected edits,
    stdin = line :: stdin1
    /\ to_int ext line = Some num_clips
    /\ ensure_folder output_folder ancestors created w = (Returned tt, w0)
    /\ split_video_into_clips ext peak_times output_folder num_clips
         30 89 w0 = (Returned selected, w1)
    /\ selected
       = select_top (rate_cuts (segmenter peak_times 30 89)) num_clips
    /\ interactive_modification fuel ext output_folder stdin1
         (snd (bind_clips selected w1)) = (Returned rest, w')
    /\ clips w' = selected ++ edits
    /\ StronglySorted rating_ge selected
    /\ Forall (fun c => (1 <= clip_rating c)%nat
                        /\ 30 <= clip_end c - clip_start c) selected
    /\ Forall (fun c => clip_rating c = 0%nat) edits.
Proof.
  intros Hrun. apply main_summary in Hrun.
  destruct Hrun as (_ & _ & _ & _ & Hclips).
  destruct (Hclips rest eq_refl)
    as (line & stdin1 & num_clips & w0 & w1 & selected & edits
        & Hstdin & Hint & Hensure & Hsplit & Hsel & Hedit & Hcl & Hrated).
  exists line, stdin1, num_clips, w0, w1, selected, edits.
  split; [exact Hstdin |]. split; [exact Hint |]. split; [exact Hensure |].
  split; [exact Hsplit |]. split; [exact Hsel |]. split; [exact Hedit |].
  split; [exact Hcl |].
  split; [rewrite Hsel; apply select_top_sorted |].
  split; [| exact Hrated].
  rewrite Hsel. apply Forall_forall. intros c Hc.
  apply list_elem_of_In, select_top_incl in Hc.
  pose proof (segmenter_cuts_rated peak_times 30 89 eq_refl) as Hall.
  rewrite Forall_forall in Hall. now apply Hall, list_elem_of_In.
Qed.

(** X23: however the script ends, no file that existed before is gone
    and the earlier entries of the export log are unchanged. Unless it
    ends with the [OSError] of [os.makedirs], the output folder exists
    afterwards; and it ends with that error only when the folder did
    not exist and could not be created, with nothing exported and the
    clip list untouched. *)
Theorem main_keeps_files (fuel : nat) (ext : Externals)
    (peak_times : list Peak) (output_folder : string)
    (ancestors : gset string) (created : bool)
    (stdin : list string) (w : World)
    (o : Outcome (list string)) (w' : World) :
  main fuel ext peak_times output_folder ancestors created stdin w = (o, w') ->
  files w ⊆ files w'
  /\ (exists written, exports w' = exports w ++ written)
  /\ (o <> Raised OSError -> output_folder ∈ files w')
  /\ (o = Raised OSError ->
      (output_folder ∉ files w) /\ created = false
      /\ exports w' = exports w /\ clips w' = clips w).
Proof.
  intros Hrun. apply main_summary in Hrun.
  destruct Hrun as (Hfiles & Hex & Hfolder & Hfail & _).
  split; [exact Hfiles |]. split; [exact Hex |].
  split; [exact Hfolder | exact Hfail].
Qed.

Lemma main_clip_list_witness :
  let ext := decimal_externals 200 (fun _ _ => true) in
  let peak_times := [(0, 40); (50, 130)] in
  let res := main 10 ext peak_times "out" ∅ true
               ["5"; "1"; "2"; "1"; "3"; "done"]%string (empty_world []) in
  exists edits,
    clips (snd res)
    = select_top (rate_cuts (segmenter peak_times 30 89)) 5 ++ edits
    /\ Forall (fun c => clip_rating c = 0%nat) edits.
Proof.
  intros ext peak_times res.
  destruct (main_clip_list 10 ext peak_times "out" ∅ true
              ["5"; "1"; "2"; "1"; "3"; "done"]%string []
              (empty_world []) (snd res))
    as (line & stdin1 & num_clips & w0 & w1 & selected & edits
        & Hstdin & Hint & _ & _ & Hsel & _ & Hclips & _ & _ & Hrated).
  { vm_compute. reflexivity. }
  injection Hstdin as <- <-.
  assert (Hnum : num_clips = 5%Z).
  { vm_compute in Hint. now injection Hint as <-. }
  rewrite Hnum in Hsel. rewrite Hsel in Hclips.
  exists edits. split; [exact Hclips | exact Hrated].
Defined.

Lemma main_keeps_files_witness :
  let ext := decimal_externals 200 (fun _ _ => true) in
  let w := empty_world [] in
  let res := main 10 ext [(0, 40); (50, 130)] "out" ∅ false
               ["2"%string] w in
  files w ⊆ files (snd res)
  /\ (exists written, exports (snd res) = exports w ++ written)
  /\ (fst res <> Raised OSError -> "out"%string ∈ files (snd res))
  /\ (fst res = Raised OSError ->
      ("out"%string ∉ files w) /\ false = false
      /\ exports (snd res) = exports w /\ clips (snd res) = clips w).
Proof.
  intros ext w res.
  apply (main_keeps_files 10 ext [(0, 40); (50, 130)] "out" ∅ false
           ["2"%string] w (fst res)).
  unfold res. now destruct (main _ _ _ _ _ _ _ _).
Defined.
